(** * FPGADevice: codec between pseudoclock instructions and clock/toggle
    ticks, and the smart-programming cache of the BLACS worker.

    Shallow embedding of [src/FPGADevice.py].  Python floats (periods,
    clock limit, stop time, analog samples) are modelled by exact
    rationals [Q]; Python [int()] on a float is truncation toward zero;
    Python exceptions are the [Err] branch of [result]. *)

From Stdlib Require Import ZArith QArith Ascii String List Sorted.
From stdpp Require Import base gmap strings pretty.
Import ListNotations.
Open Scope Z_scope.

(* ------------------------------------------------------------------ *)
(** ** Errors and results *)

(** The Python exceptions the modelled code can raise. *)
Inductive error :=
| LabscriptError (msg : string)
| IndexError
| TransmissionFailure.

Inductive result (A : Type) :=
| Ok (a : A)
| Err (e : error).
Arguments Ok {A} a.
Arguments Err {A} e.

Definition is_ok {A} (r : result A) : bool :=
  match r with Ok _ => true | Err _ => false end.

(** [int(x)] for a Python float [x]: truncation toward zero. *)
Definition py_int (q : Q) : Z := Z.quot (Qnum q) (Zpos (Qden q)).

(* ------------------------------------------------------------------ *)
(** ** reduce_clock_instructions *)

(** An element of [pseudoclock.clock]: the string ['WAIT'] or a
    [{'step': ..., 'reps': ...}] dictionary. *)
Inductive instruction :=
| WAIT
| Instr (step : Q) (reps : Z).

(** A [{'step': ..., 'reps': ...}] dictionary of the reduced list. *)
Record step_reps := mk_step_reps { step : Q; reps : Z }.

(** The loop of [reduce_clock_instructions].  [acc] is
    [reduced_instructions] in reverse order, so that its head is
    [reduced_instructions[-1]]; the Python [==] on periods is [Qeq_bool]. *)
Fixpoint reduce_loop (acc : list step_reps) (clock : list instruction)
  : list step_reps :=
  match clock with
  | [] => rev acc
  | WAIT :: rest => reduce_loop (mk_step_reps 0 1 :: acc) rest
  | Instr s r :: rest =>
      match acc with
      | last :: acc' =>
          if Qeq_bool (step last) s
          then reduce_loop (mk_step_reps (step last) (reps last + r) :: acc') rest
          else reduce_loop (mk_step_reps s r :: acc) rest
      | [] => reduce_loop [mk_step_reps s r] rest
      end
  end.

Definition reduce_clock_instructions (clock : list instruction) : list step_reps :=
  reduce_loop [] clock.

(** A reduced list fed back to [reduce_clock_instructions]: its
    dictionaries are ordinary step/reps instructions (no ['WAIT'] string). *)
Definition as_instructions (l : list step_reps) : list instruction :=
  map (fun sr => Instr (step sr) (reps sr)) l.

(* ------------------------------------------------------------------ *)
(** ** convert_to_clocks_and_toggles *)

(** A row [(n_clocks, toggles)] of the clocks/toggles signal. *)
Definition tick : Type := (Z * Z)%type.

(** The output connected to an [OutputIntermediateDevice], tagged by its
    class: [AnalogOut], [DigitalOut] or any other output class. *)
Inductive output :=
| AnalogOut (raw_output : list Q)
| DigitalOut (raw_output : list Z)
| OtherOutput (class_name : string).

Definition unsupported_msg (class_name : string) : string :=
  "Conversion to clocks and toggles not supported for output type '"
    ++ class_name ++ "'.".

(** Ticks emitted for the instructions after the first one:
    [(int(step * clock_limit) - 1, reps - 1)]. *)
Definition later_ticks (clock : list step_reps) (clock_limit : Q) : list tick :=
  map (fun t => (py_int (step t * clock_limit) - 1, reps t - 1)) clock.

Definition convert_to_clocks_and_toggles
    (clock : list step_reps) (out : output) (clock_limit : Q) : result (list tick) :=
  match clock with
  | [] => Ok []
  | t :: rest =>
      let initial :=
        match out with
        | DigitalOut (x :: _) => Ok x
        | DigitalOut [] => Err IndexError
        | AnalogOut _ => Ok 0
        | OtherOutput name => Err (LabscriptError (unsupported_msg name))
        end in
      match initial with
      | Err e => Err e
      | Ok initial_state =>
          let n_clocks := py_int (step t * clock_limit) - 1 in
          (* tick['reps'] -= 1 *)
          let r := reps t - 1 in
          if r =? 0
          then Ok ((n_clocks, initial_state) :: later_ticks rest clock_limit)
          else Ok ((n_clocks, initial_state) :: (n_clocks, r - 1)
                   :: later_ticks rest clock_limit)
      end
  end.

(* ------------------------------------------------------------------ *)
(** ** expand_clock *)

(** The inner [for i in range(toggles)] loop: [last] is [times[-1]],
    [d] is [n_clocks / clock_limit]; the loop stops at the first
    candidate time greater than [stop_time]. *)
Fixpoint toggle_times (k : nat) (last d stop_time : Q) : list Q :=
  match k with
  | O => []
  | S k' =>
      let new_time := (last + d)%Q in
      if Qle_bool new_time stop_time
      then new_time :: toggle_times k' new_time d stop_time
      else []
  end.

(** The ticks after the first one; [last] is [times[-1]]. *)
Fixpoint expand_rest (last : Q) (ticks : list tick) (clock_limit stop_time : Q)
  : list Q :=
  match ticks with
  | [] => []
  | (n_clocks, toggles) :: rest =>
      let ts := toggle_times (Z.to_nat toggles) last
                  (inject_Z n_clocks / clock_limit) stop_time in
      ts ++ expand_rest (List.last ts last) rest clock_limit stop_time
  end.

Definition expand_clock (ticks : list tick) (clock_limit stop_time : Q) : list Q :=
  match ticks with
  | [] => []
  | (n_clocks, _) :: rest =>
      let t0 := (inject_Z n_clocks / clock_limit)%Q in
      t0 :: expand_rest t0 rest clock_limit stop_time
  end.

(* ------------------------------------------------------------------ *)
(** ** OutputIntermediateDevice.add_device *)

(** [str.split(' ')]: split at every single space, keeping empty pieces. *)
Fixpoint split_space_from (cur : string) (s : string) : list string :=
  match s with
  | EmptyString => [cur]
  | String c s' =>
      if Ascii.eqb c " "%char then cur :: split_space_from "" s'
      else split_space_from (cur ++ String c "") s'
  end.

Definition split_space (s : string) : list string := split_space_from "" s.

(** The characters Python 2 strips around the argument of [int()]. *)
Definition is_py_space (c : Ascii.ascii) : bool :=
  let n := Ascii.nat_of_ascii c in
  Nat.eqb n 32 || (Nat.leb 9 n && Nat.leb n 13).

Fixpoint drop_spaces (l : list Ascii.ascii) : list Ascii.ascii :=
  match l with
  | c :: l' => if is_py_space c then drop_spaces l' else l
  | [] => []
  end.

Definition digit_value (c : Ascii.ascii) : option Z :=
  let n := Ascii.nat_of_ascii c in
  if Nat.leb 48 n && Nat.leb n 57 then Some (Z.of_nat n - 48) else None.

(** A non-empty run of decimal digits, read most significant first. *)
Fixpoint digits_value (acc : Z) (l : list Ascii.ascii) : option Z :=
  match l with
  | [] => Some acc
  | c :: l' =>
      match digit_value c with
      | Some d => digits_value (10 * acc + d) l'
      | None => None
      end
  end.

Definition unsigned_value (l : list Ascii.ascii) : option Z :=
  match l with
  | [] => None
  | _ => digits_value 0 l
  end.

(** [int(s)] on a (byte) string, base 10, as Python 2's
    [PyInt_FromString] reads it: whitespace, an optional sign, whitespace
    again ([PyOS_strtoul] skips it after the sign), a non-empty run of
    decimal digits, then whitespace up to the end; [None] is the
    [ValueError]. *)
Definition split_sign (l : list Ascii.ascii) : Z * list Ascii.ascii :=
  match l with
  | "-"%char :: l' => (-1, l')
  | "+"%char :: l' => (1, l')
  | _ => (1, l)
  end.

Definition int_of_string (s : string) : option Z :=
  let '(sign, l') := split_sign (drop_spaces (list_ascii_of_string s)) in
  option_map (Z.mul sign) (unsigned_value (rev (drop_spaces (rev (drop_spaces l'))))).

(** An [AnalogOut] or [DigitalOut] being attached. *)
Record device := mk_device {
  description : string;
  dev_name : string;
  connection : string
}.

Record intermediate_device := mk_intermediate_device {
  oid_name : string;
  child_devices : list device;
  oid_output : option device
}.

(** The body of the [try] block: [prefix, channel = connection.split(' ')]
    (a [ValueError] unless there are exactly two pieces), the prefix test
    and [int(channel)].  [true] when no [ValueError] is raised. *)
Definition connection_ok (conn : string) : bool :=
  match split_space conn with
  | [prefix; channel] =>
      if negb (String.eqb prefix "analog") && negb (String.eqb prefix "digital")
      then false
      else match int_of_string channel with Some _ => true | None => false end
  | _ => false
  end.

(** [IntermediateDevice.add_device] of labscript (not part of this
    repository) is taken to record the child. *)
Definition add_device (self : intermediate_device) (d : device)
  : result intermediate_device :=
  match child_devices self with
  | c :: _ =>
      Err (LabscriptError ("Output '" ++ dev_name c
             ++ "' is already connected to the OutputIntermediateDevice '"
             ++ oid_name self ++ "'.Only one output is allowed."))
  | [] =>
      if connection_ok (connection d)
      then Ok (mk_intermediate_device (oid_name self)
                 (child_devices self ++ [d]) (Some d))
      else Err (LabscriptError (description d ++ " " ++ dev_name d
             ++ " has invalid connection string '" ++ connection d
             ++ "'.Format must be 'analog|digital #'."))
  end.

(* ------------------------------------------------------------------ *)
(** ** FPGADeviceWorker.transition_to_buffered *)

(** [self.smart_cache['clocks']] and [self.smart_cache['data']]
    ([self.smart_cache['output_values']] is only used by
    [program_manual]). *)
Record smart_cache := mk_smart_cache {
  sc_clocks : gmap string (list tick);
  sc_data : gmap string (list Q)
}.

(** The calls made on [self.interface]. *)
Inductive hw_call :=
| SendPseudoclock (board_number channel_number : Z) (clock : list tick)
| SendAnalogData (board_number channel_number : Z) (range_min range_max : Q)
    (data : list Q).

(** The worker state: its smart cache, and the hardware calls issued so far. *)
Record wstate := mk_wstate {
  smart : smart_cache;
  sent : list hw_call
}.

(** Worker code: state passing over [wstate], with Python exceptions.  The
    state reached before an exception is kept, as the worker object
    outlives the failed call. *)
Definition M (A : Type) : Type := wstate -> wstate * result A.

Global Instance M_ret : MRet M := fun A a s => (s, Ok a).
Global Instance M_bind : MBind M := fun A B k m s =>
  match m s with
  | (s', Ok a) => k a s'
  | (s', Err e) => (s', Err e)
  end.

Definition raise {A} (e : error) : M A := fun s => (s, Err e).

Definition get_cache : M smart_cache := fun s => (s, Ok (smart s)).

Definition cache_clock (o : string) (clock : list tick) : M unit := fun s =>
  (mk_wstate (mk_smart_cache (<[o := clock]> (sc_clocks (smart s)))
                             (sc_data (smart s))) (sent s), Ok tt).

Definition cache_data (o : string) (data : list Q) : M unit := fun s =>
  (mk_wstate (mk_smart_cache (sc_clocks (smart s))
                             (<[o := data]> (sc_data (smart s)))) (sent s), Ok tt).

Section Worker.

(** The hardware: [transport c] is [true] when the call [c] returns and
    [false] when it raises (a transport failure). *)
Variable transport : hw_call -> bool.

Definition send (c : hw_call) : M unit := fun s =>
  let s' := mk_wstate (smart s) (sent s ++ [c]) in
  if transport c then (s', Ok tt) else (s', Err TransmissionFailure).

(** [np.any(new != cached)], where [cached] is [dict.get(...)]: [None]
    compares unequal as a whole; arrays of equal length compare
    elementwise; a length-1 array is broadcast against the other one;
    arrays of other, different lengths compare unequal as a whole. *)
Definition np_any_ne {A} (eqb : A -> A -> bool) (new : list A)
    (cached : option (list A)) : bool :=
  match cached with
  | None => true
  | Some old =>
      if Nat.eqb (length new) (length old)
      then existsb (fun p => negb (eqb p.1 p.2)) (combine new old)
      else match new, old with
           | _, [y] => existsb (fun x => negb (eqb x y)) new
           | [x], _ => existsb (fun y => negb (eqb x y)) old
           | _, _ => true
           end
  end.

Definition tick_eqb (a b : tick) : bool := (a.1 =? b.1) && (a.2 =? b.2).

(** [sum(clock['toggles'])] *)
Definition sum_toggles (clock : list tick) : Z := fold_right Z.add 0 (map snd clock).

(** [group.get(name)] on an HDF5 group, kept as a list in iteration order. *)
Fixpoint group_get {A} (name : string) (g : list (string * A)) : option A :=
  match g with
  | [] => None
  | (k, v) :: g' => if String.eqb k name then Some v else group_get name g'
  end.

(** The first loop, [for i, output in enumerate(clocks)]. *)
Fixpoint send_clocks (analog_data : list (string * list Q)) (fresh_program : bool)
    (i : Z) (clocks : list (string * list tick)) (final_state : gmap string Q)
  : M (gmap string Q) :=
  match clocks with
  | [] => mret final_state
  | (o, clock) :: rest =>
      c ← get_cache;
      (if fresh_program || np_any_ne tick_eqb clock (sc_clocks c !! o)
       then cache_clock o clock;; send (SendPseudoclock 0 i clock)
       else mret tt);;
      final_state' ←
        (match group_get o analog_data with
         | None =>
             let n_toggles := sum_toggles clock in
             match clock with
             | [] => raise IndexError
             | c0 :: _ => mret (<[o := inject_Z (c0.2 + n_toggles mod 2)]> final_state)
             end
         | Some _ => mret final_state
         end);
      send_clocks analog_data fresh_program (i + 1) rest final_state'
  end.

(** The second loop, [for i, output in enumerate(analog_data)]. *)
Fixpoint send_analog (limits : list (string * (Q * Q))) (fresh_program : bool)
    (i : Z) (analog_data : list (string * list Q)) (final_state : gmap string Q)
  : M (gmap string Q) :=
  match analog_data with
  | [] => mret final_state
  | (o, data) :: rest =>
      c ← get_cache;
      final_state' ←
        (if fresh_program || np_any_ne Qeq_bool data (sc_data c !! o)
         then match List.last (map Some data) None with
              | None => raise IndexError
              | Some v =>
                  let fs := <[o := v]> final_state in
                  cache_data o data;;
                  let '(range_min, range_max) :=
                    match group_get o limits with
                    | Some lim => lim
                    | None => (0%Q, 5%Q)
                    end in
                  send (SendAnalogData 0 i range_min range_max data);;
                  mret fs
              end
         else mret final_state);
      send_analog limits fresh_program (i + 1) rest final_state'
  end.

(** The device group read from the HDF5 file. *)
Record device_group := mk_device_group {
  clocks : list (string * list tick);
  analog_data : list (string * list Q);
  analog_limits : list (string * (Q * Q))
}.

Definition transition_to_buffered (g : device_group) (fresh_program : bool)
  : M (gmap string Q) :=
  final_state ← send_clocks (analog_data g) fresh_program 0 (clocks g) ∅;
  send_analog (analog_limits g) fresh_program 0 (analog_data g) final_state.

End Worker.

(** The connection string ["digital -\t3"]: a tab between the sign and
    the digits. *)
Definition digital_minus_tab_3 : string :=
  "digital -" ++ String (Ascii.ascii_of_nat 9) "3".

(** Concrete inputs. *)
Definition example_clock : list step_reps :=
  [mk_step_reps (1#10) 3; mk_step_reps (2#10) 2].

Definition empty_worker : wstate := mk_wstate (mk_smart_cache ∅ ∅) [].

(* ------------------------------------------------------------------ *)
(** ** Properties of the reducer *)

(** No two adjacent elements have equal periods. *)
Fixpoint steps_distinct (l : list step_reps) : bool :=
  match l with
  | a :: ((b :: _) as t) => negb (Qeq_bool (step a) (step b)) && steps_distinct t
  | _ => true
  end.

Definition is_wait (i : instruction) : bool :=
  match i with WAIT => true | Instr _ _ => false end.

(** The periods of a clock, each repeated [reps] times. *)
Definition flatten_instructions (x : list instruction) : list Q :=
  concat (map (fun i => match i with
                        | WAIT => []
                        | Instr s r => repeat s (Z.to_nat r)
                        end) x).

Definition flatten_reduced (l : list step_reps) : list Q :=
  flatten_instructions (as_instructions l).

(** Total duration: the sum of [step * reps]. *)
Definition total_duration (x : list instruction) : Q :=
  fold_right Qplus 0%Q (map (fun i => match i with
                                      | WAIT => 0%Q
                                      | Instr s r => (s * inject_Z r)%Q
                                      end) x).

Definition reps_nonneg (i : instruction) : Prop :=
  match i with WAIT => True | Instr _ r => 0 <= r end.

Definition qsum (l : list Q) : Q := fold_right Qplus 0%Q l.

(* ------------------------------------------------------------------ *)
(** ** Further code of the module: exceptions of the remaining functions *)

(** The exceptions raised by the functions below: one of the errors above,
    or a Python built-in exception. *)
Inductive exc :=
| Exc (e : error)
| AttributeError
| ValueError
| KeyError
| NameError
| H5NameExists (name : string).

Inductive pyresult (A : Type) :=
| XOk (a : A)
| XErr (e : exc).
Arguments XOk {A} a.
Arguments XErr {A} e.

(** [str.split()] without argument: the pieces between runs of whitespace,
    with no empty piece. *)
Fixpoint split_ws_from (cur : list Ascii.ascii) (l : list Ascii.ascii)
  : list string :=
  match l with
  | [] => match cur with [] => [] | _ => [string_of_list_ascii (rev cur)] end
  | c :: l' =>
      if is_py_space c
      then match cur with
           | [] => split_ws_from [] l'
           | _ => string_of_list_ascii (rev cur) :: split_ws_from [] l'
           end
      else split_ws_from (c :: cur) l'
  end.

Definition split_ws (s : string) : list string :=
  split_ws_from [] (list_ascii_of_string s).

(* ------------------------------------------------------------------ *)
(** ** FPGADeviceWorker.program_manual *)

(** A call [self.interface.send_realtime_value(board, channel, value,
    range_min, range_max, output_type)]. *)
Inductive realtime_call :=
| SendRealtimeValue (board_number channel_number : Z) (value range_min range_max : Q)
    (output_type : string).

(** [self.smart_cache['output_values']] and the realtime calls made. *)
Record manual_state := mk_manual_state {
  output_values : gmap string Q;
  rt_sent : list realtime_call
}.

Section Manual.

(** The value the board reports it is now outputting, for each call. *)
Variable send_realtime_value : realtime_call -> Q.

(** [value != self.smart_cache['output_values'].get(output_name)]; a
    missing entry ([None]) is unequal to every value. *)
Definition value_changed (value : Q) (cached : option Q) : bool :=
  match cached with
  | Some v => negb (Qeq_bool value v)
  | None => true
  end.

(** The loop over [values] (the dictionary, in its iteration order). *)
Fixpoint program_manual_loop (values : list (string * Q))
    (modified_values : gmap string Q) (st : manual_state)
  : manual_state * pyresult (gmap string Q) :=
  match values with
  | [] => (st, XOk modified_values)
  | (output_name, value) :: rest =>
      if value_changed value (output_values st !! output_name)
      then match split_ws output_name with
           | [output_type; channel] =>
               match int_of_string channel with
               | Some channel_number =>
                   let c := SendRealtimeValue 0 channel_number value 0 10 output_type in
                   let new_value := send_realtime_value c in
                   program_manual_loop rest (<[output_name := new_value]> modified_values)
                     (mk_manual_state (<[output_name := new_value]> (output_values st))
                                      (rt_sent st ++ [c]))
               | None => (st, XErr ValueError)
               end
           | _ => (st, XErr ValueError)
           end
      else program_manual_loop rest modified_values st
  end.

Definition program_manual (values : list (string * Q)) (st : manual_state)
  : manual_state * pyresult (gmap string Q) :=
  program_manual_loop values ∅ st.

End Manual.

(* ------------------------------------------------------------------ *)
(** ** FPGADevice.outputs *)

(** The device object: declared output counts ([None] when not given),
    and the names of the pseudoclocks, clock lines and intermediate devices
    created so far. *)
Record fpga_device := mk_fpga_device {
  fd_name : string;
  n_analog : option Z;
  n_digital : option Z;
  pseudoclocks : list string;
  clocklines : list string;
  output_devices : list intermediate_device
}.

(** [FPGADevice(name, n_analog, n_digital)] *)
Definition new_fpga_device (name : string) (n_analog n_digital : option Z) : fpga_device :=
  mk_fpga_device name n_analog n_digital [] [] [].

(** [self.n_digital + self.n_analog], or [None] on the [TypeError] raised
    when one of them is [None]. *)
Definition max_outputs (self : fpga_device) : option Z :=
  match n_digital self, n_analog self with
  | Some d, Some a => Some (d + a)
  | _, _ => None
  end.

(** The [outputs] property: a new pseudoclock, clock line and
    [OutputIntermediateDevice] numbered [n = len(self.pseudoclocks)]. *)
Definition outputs (self : fpga_device) : pyresult (fpga_device * intermediate_device) :=
  let n := length (pseudoclocks self) in
  let full := match max_outputs self with
              | Some m => Z.of_nat n =? m
              | None => false
              end in
  if full
  then XErr (Exc (LabscriptError ("Cannot connect more than " ++ pretty n
               ++ " outputs to the device '" ++ fd_name self ++ "'")))
  else
    let oid := mk_intermediate_device ("fpga_output_device" ++ pretty n) [] None in
    XOk (mk_fpga_device (fd_name self) (n_analog self) (n_digital self)
           (pseudoclocks self ++ [("fpga_pseudoclock" ++ pretty n)%string])
           (clocklines self ++ [("fpga_output" ++ pretty n ++ "_clock_line")%string])
           (output_devices self ++ [oid]), oid).

(** [k] successive reads of [fpga.outputs]. *)
Fixpoint read_outputs (k : nat) (self : fpga_device) : pyresult fpga_device :=
  match k with
  | O => XOk self
  | S k' =>
      match outputs self with
      | XOk (self', _) => read_outputs k' self'
      | XErr e => XErr e
      end
  end.

(* ------------------------------------------------------------------ *)
(** ** FPGADevice.generate_code *)

(** [FPGADevice.clock_limit] and [FPGADevice.clock_resolution]. *)
Definition fpga_clock_limit : Q := 100000000.
Definition fpga_clock_resolution : Q := 1 # 1000000000.

(** [output.__class__]: labscript's [AnalogOut] or [DigitalOut] class
    itself, or another class (a subclass of one of them, such as
    [Shutter], or an unrelated output class). *)
Inductive output_class :=
| ClassAnalogOut
| ClassDigitalOut
| ClassOther (name : string).

(** An output attached to an intermediate device: what [isinstance] sees
    of it ([att_output]), its exact class, its connection string and its
    [limits] ([None] when not given). *)
Record attached_output := mk_attached_output {
  att_output : output;
  att_class : output_class;
  att_connection : string;
  att_limits : option (Q * Q)
}.

(** [output_device.output.__class__ == AnalogOut] (resp. [DigitalOut]),
    the test of [outputs.count(AnalogOut)]; a missing output is [None],
    whose class is [NoneType]. *)
Definition is_analog_out (o : option attached_output) : bool :=
  match o with Some a => match att_class a with ClassAnalogOut => true | _ => false end
             | None => false end.

Definition is_digital_out (o : option attached_output) : bool :=
  match o with Some a => match att_class a with ClassDigitalOut => true | _ => false end
             | None => false end.

(** [not x] on an optional integer: [None] and [0] are falsy. *)
Definition py_falsy (x : option Z) : bool :=
  match x with None => true | Some z => z =? 0 end.

Definition format_count (x : option Z) : string :=
  match x with None => "None" | Some z => pretty z end.

(** [group.create_dataset(name, data=...)]: h5py refuses an existing name. *)
Definition create_dataset {A} (g : list (string * A)) (name : string) (v : A)
  : pyresult (list (string * A)) :=
  if existsb (fun p => String.eqb p.1 name) g
  then XErr (H5NameExists name)
  else XOk (g ++ [(name, v)]).

(** The loop over the pseudoclocks: each with its [clock] (as produced by
    [PseudoclockDevice.generate_code]) and [output_devices[i].output].  A
    missing output fails on [output.connection] ([AttributeError]) before
    the [output is None] test is reached. *)
Fixpoint generate_channels (chans : list (list instruction * option attached_output))
    (g : device_group) : pyresult device_group :=
  match chans with
  | [] => XOk g
  | (clock, o) :: rest =>
      match o with
      | None => XErr AttributeError
      | Some a =>
          let conn := att_connection a in
          match convert_to_clocks_and_toggles (reduce_clock_instructions clock)
                  (att_output a) fpga_clock_limit with
          | Err e => XErr (Exc e)
          | Ok ct =>
              match create_dataset (clocks g) conn ct with
              | XErr e => XErr e
              | XOk cg =>
                  match att_output a with
                  | AnalogOut raw =>
                      match create_dataset (analog_data g) conn raw with
                      | XErr e => XErr e
                      | XOk ag =>
                          match att_limits a with
                          | Some lim =>
                              match create_dataset (analog_limits g) conn lim with
                              | XErr e => XErr e
                              | XOk lg => generate_channels rest (mk_device_group cg ag lg)
                              end
                          | None =>
                              generate_channels rest
                                (mk_device_group cg ag (analog_limits g))
                          end
                      end
                  | _ => generate_channels rest
                           (mk_device_group cg (analog_data g) (analog_limits g))
                  end
              end
          end
      end
  end.

(** What [generate_code] writes under [/devices/<name>]: the three groups,
    and the attributes [(stop_time, clock_limit, clock_resolution)], which
    are only set inside the loop, so only when there is a pseudoclock. *)
Record generated := mk_generated {
  gen_group : device_group;
  gen_attrs : option (Q * Q * Q)
}.

(** [outputs.count(AnalogOut)] and [outputs.count(DigitalOut)], where
    [outputs] lists the classes of the outputs of [self.output_devices]. *)
Definition count_analog (chans : list (list instruction * option attached_output)) : Z :=
  Z.of_nat (length (filter is_analog_out (map snd chans))).

Definition count_digital (chans : list (list instruction * option attached_output)) : Z :=
  Z.of_nat (length (filter is_digital_out (map snd chans))).

Definition count_mismatch_msg (name : string) (nd na : option Z) (fd fa : Z) : string :=
  "FPGADevice '" ++ name
    ++ "' does not have enough outputs attached. Expected " ++ format_count nd
    ++ " digital, " ++ format_count na ++ " analog but found "
    ++ pretty fd ++ " digital, " ++ pretty fa ++ " analog".

(** The first lines of [generate_code]: the falsy counts are set to the
    counts found, then both are compared with them. *)
Definition check_counts (self : fpga_device)
    (chans : list (list instruction * option attached_output)) : pyresult fpga_device :=
  let found_analog := count_analog chans in
  let found_digital := count_digital chans in
  let nd := if py_falsy (n_digital self) then Some found_digital else n_digital self in
  let na := if py_falsy (n_analog self) then Some found_analog else n_analog self in
  if negb (bool_decide (na = Some found_analog)) || negb (bool_decide (nd = Some found_digital))
  then XErr (Exc (LabscriptError
                    (count_mismatch_msg (fd_name self) nd na found_digital found_analog)))
  else XOk (mk_fpga_device (fd_name self) na nd (pseudoclocks self)
              (clocklines self) (output_devices self)).

Definition generate_code (self : fpga_device)
    (chans : list (list instruction * option attached_output)) (stop_time : Q)
  : pyresult (fpga_device * generated) :=
  match check_counts self chans with
  | XErr e => XErr e
  | XOk self' =>
      match generate_channels chans (mk_device_group [] [] []) with
      | XErr e => XErr e
      | XOk g =>
          XOk (self', mk_generated g
                        (match chans with
                         | [] => None
                         | _ => Some (stop_time, fpga_clock_limit, fpga_clock_resolution)
                         end))
      end
  end.

(* ------------------------------------------------------------------ *)
(** ** FPGARunViewerParser.get_traces *)

(** Python's [sub in s] on strings. *)
Definition str_contains (sub s : string) : bool :=
  match String.index 0 sub s with Some _ => true | None => false end.

(** A trace [(name, (change_times, data))] passed to [add_trace]. *)
Definition trace : Type := (string * (list Q * list Q))%type.

(** The loop of [get_traces] over the clocks group.  [prev] is the [data]
    variable left by the previous iteration ([None] before the first one).
    Returns the traces added, and the exception that ended the loop, if
    any. *)
Fixpoint get_traces_loop (clocks_group : list (string * list tick))
    (analog_data_group : list (string * list Q)) (clock_limit stop_time : Q)
    (prev : option (list Q)) : list trace * option exc :=
  match clocks_group with
  | [] => ([], None)
  | (output_name, clock) :: rest =>
      let change_times := expand_clock clock clock_limit stop_time in
      let this :=
        if str_contains "analog" output_name
        then match group_get output_name analog_data_group with
             | Some data => XOk (change_times, data)
             | None => XErr KeyError
             end
        else if str_contains "digital" output_name
        then match clock with
             | [] => XErr (Exc IndexError)
             | c0 :: _ =>
                 let ts := 0%Q :: change_times in
                 XOk (ts, map (fun i => inject_Z ((c0.2 + Z.of_nat i) mod 2))
                                (seq 0 (length ts)))
             end
        else match prev with
             | Some data => XOk (change_times, data)
             | None => XErr NameError
             end in
      match this with
      | XErr e => ([], Some e)
      | XOk (ts, data) =>
          let '(tr, e) := get_traces_loop rest analog_data_group clock_limit stop_time
                            (Some data) in
          ((output_name, (ts, data)) :: tr, e)
      end
  end.

Definition get_traces (g : device_group) (clock_limit stop_time : Q)
  : list trace * option exc :=
  get_traces_loop (clocks g) (analog_data g) clock_limit stop_time None.

(* ------------------------------------------------------------------ *)
(** ** Concrete inputs of the further code *)
(** A board that outputs exactly the requested value. *)
Definition echo_board (c : realtime_call) : Q :=
  match c with SendRealtimeValue _ _ v _ _ _ => v end.

Definition manual_example_state : manual_state :=
  mk_manual_state (<["analog 0" := 1%Q]> ∅) [].

Definition manual_example_values : list (string * Q) :=
  [("analog 0", 1%Q); ("digital 3", 1%Q); ("analog 1", (1#2)%Q)].

(** The number of clock periods an instruction stands for: its [reps], and
    one for a ['WAIT'] (reduced to [{'step': 0, 'reps': 1}]). *)
Definition instr_reps (i : instruction) : Z :=
  match i with WAIT => 1 | Instr _ r => r end.

Definition total_reps (x : list instruction) : Z :=
  fold_right Z.add 0 (map instr_reps x).

(** The clock periods encoded by the ticks after the first one: each
    [(n_clocks, toggles)] row stands for [toggles + 1] periods. *)
Definition clock_edges (ts : list tick) : Z :=
  fold_right Z.add 0 (map (fun t => 1 + t.2) (tl ts)).

(** What [generate_code] should write for its pseudoclocks, read off
    their outputs: the connection names, the analog data of the [AnalogOut]
    outputs and the limits of those that have some. *)
Definition chan_connections (chans : list (list instruction * option attached_output))
  : list string :=
  flat_map (fun c => match c.2 with Some a => [att_connection a] | None => [] end) chans.

Definition chan_analog_data (chans : list (list instruction * option attached_output))
  : list (string * list Q) :=
  flat_map (fun c => match c.2 with
                     | Some a => match att_output a with
                                 | AnalogOut raw => [(att_connection a, raw)]
                                 | _ => []
                                 end
                     | None => []
                     end) chans.

Definition chan_analog_limits (chans : list (list instruction * option attached_output))
  : list (string * (Q * Q)) :=
  flat_map (fun c => match c.2 with
                     | Some a => match att_output a, att_limits a with
                                 | AnalogOut _, Some lim => [(att_connection a, lim)]
                                 | _, _ => []
                                 end
                     | None => []
                     end) chans.

Definition empty_group : device_group := mk_device_group [] [] [].

(** Two pseudoclocks, one driving an [AnalogOut] with limits and one a
    [DigitalOut]. *)
Definition example_analog : attached_output :=
  mk_attached_output (AnalogOut [0%Q; (1#2)%Q]) ClassAnalogOut "analog 0" (Some (0%Q, 5%Q)).

Definition example_digital : attached_output :=
  mk_attached_output (DigitalOut [1; 0]) ClassDigitalOut "digital 1" None.

Definition example_chans : list (list instruction * option attached_output) :=
  [([Instr (1#10) 2], Some example_analog);
   ([Instr (1#10) 1; Instr (1#10) 1], Some example_digital)].

(** The calls a fresh program makes, in order: one [send_pseudoclock] per
    clock, numbered by its position, then one [send_analog_data] per analog
    data array, numbered by its position, with its limits or [(0, 5)]. *)
Fixpoint pseudoclock_calls (i : Z) (cl : list (string * list tick)) : list hw_call :=
  match cl with
  | [] => []
  | (o, clock) :: rest => SendPseudoclock 0 i clock :: pseudoclock_calls (i + 1) rest
  end.

Fixpoint analog_calls (limits : list (string * (Q * Q))) (i : Z)
    (ad : list (string * list Q)) : list hw_call :=
  match ad with
  | [] => []
  | (o, data) :: rest =>
      let '(range_min, range_max) :=
        match group_get o limits with Some lim => lim | None => (0%Q, 5%Q) end in
      SendAnalogData 0 i range_min range_max data :: analog_calls limits (i + 1) rest
  end.

(** A device group with an analog channel (with limits) and a digital
    channel. *)
Definition example_group : device_group :=
  mk_device_group [("analog 0", [(9, 0); (9, 0)]); ("digital 1", [(4, 1); (4, 2)])]
                  [("analog 0", [0%Q; (1#2)%Q])] [("analog 0", (0%Q, 5%Q))].

Lemma Qeq_bool_sym (x y : Q) : Qeq_bool x y = Qeq_bool y x.
Proof.
  destruct (Qeq_bool x y) eqn:E1, (Qeq_bool y x) eqn:E2; auto.
  - apply Qeq_bool_iff in E1. apply Qeq_sym, Qeq_bool_iff in E1. congruence.
  - apply Qeq_bool_iff in E2. apply Qeq_sym, Qeq_bool_iff in E2. congruence.
Qed.

Lemma steps_distinct_split (l : list step_reps) :
  steps_distinct l = true <->
  (forall xs a b ys, l = xs ++ a :: b :: ys -> Qeq_bool (step a) (step b) = false).
Proof.
  induction l as [|x t IH]; split.
  - intros _ xs a b ys E. destruct xs; discriminate.
  - reflexivity.
  - intros H xs a b ys E. destruct xs as [|x' xs']; simpl in E; injection E as -> E.
    + subst t. simpl in H. apply andb_prop in H as [H _].
      by apply negb_true_iff in H.
    + destruct t as [|y t']; [destruct xs'; discriminate|].
      apply andb_prop in H as [_ H]. apply (proj1 IH H xs' a b ys E).
  - intros H. destruct t as [|y t']; [reflexivity|].
    apply andb_true_intro; split.
    + apply negb_true_iff. apply (H [] x y t'). reflexivity.
    + apply IH. intros xs a b ys E. apply (H (x :: xs) a b ys). by rewrite E.
Qed.

Lemma steps_distinct_rev (l : list step_reps) :
  steps_distinct (rev l) = steps_distinct l.
Proof.
  assert (Hdir : forall l, steps_distinct l = true -> steps_distinct (rev l) = true).
  { intros k Hk. apply steps_distinct_split. intros xs a b ys E.
    apply (f_equal (@rev _)) in E. rewrite rev_involutive in E.
    rewrite rev_app_distr in E. simpl in E. rewrite <- !app_assoc in E.
    simpl in E. rewrite Qeq_bool_sym.
    apply (proj1 (steps_distinct_split k) Hk (rev ys) b a (rev xs) E). }
  destruct (steps_distinct l) eqn:E1.
  - by apply Hdir.
  - destruct (steps_distinct (rev l)) eqn:E2; [|reflexivity].
    apply Hdir in E2. rewrite rev_involutive in E2. congruence.
Qed.

(** Re-reducing a list without equal adjacent periods changes nothing. *)
Lemma reduce_loop_distinct (l acc : list step_reps) :
  steps_distinct l = true ->
  match acc, l with
  | last :: _, a :: _ => Qeq_bool (step last) (step a) = false
  | _, _ => True
  end ->
  reduce_loop acc (as_instructions l) = rev acc ++ l.
Proof.
  revert acc. induction l as [|a l IH]; intros acc Hd Hhd.
  - simpl. by rewrite app_nil_r.
  - assert (Hl : steps_distinct l = true).
    { destruct l; [reflexivity|]. simpl in Hd. by apply andb_prop in Hd as [_ Hd]. }
    assert (Hal : match l with b :: _ => Qeq_bool (step a) (step b) = false | [] => True end).
    { destruct l as [|b l']; [exact I|]. simpl in Hd.
      apply andb_prop in Hd as [Hd _]. by apply negb_true_iff in Hd. }
    destruct a as [sa ra]. simpl. destruct acc as [|last acc'].
    + rewrite (IH [mk_step_reps sa ra]); [reflexivity|exact Hl|destruct l; exact Hal].
    + simpl in Hhd. rewrite Hhd.
      rewrite (IH (mk_step_reps sa ra :: last :: acc')); [|exact Hl|destruct l; exact Hal].
      simpl. by rewrite <- !app_assoc.
Qed.

(** Without ['WAIT'] markers the reduced list has no equal adjacent periods. *)
Lemma reduce_loop_steps_distinct (x : list instruction) (acc : list step_reps) :
  Forall (fun i => is_wait i = false) x ->
  steps_distinct acc = true ->
  steps_distinct (reduce_loop acc x) = true.
Proof.
  revert acc. induction x as [|i x IH]; intros acc Hw Hacc; simpl.
  - by rewrite steps_distinct_rev.
  - inversion Hw as [|? ? Hi Hx]; subst.
    destruct i as [|s r]; [discriminate|].
    destruct acc as [|last acc'].
    + by apply IH.
    + destruct (Qeq_bool (step last) s) eqn:E; apply IH; try exact Hx.
      * destruct acc'; [reflexivity|]. exact Hacc.
      * change (negb (Qeq_bool s (step last)) && steps_distinct (last :: acc') = true).
        rewrite Qeq_bool_sym, E. exact Hacc.
Qed.

Lemma flatten_reduced_snoc (l : list step_reps) (a : step_reps) :
  flatten_reduced (l ++ [a]) = flatten_reduced l ++ repeat (step a) (Z.to_nat (reps a)).
Proof.
  unfold flatten_reduced, flatten_instructions, as_instructions.
  rewrite !map_app, concat_app. simpl. by rewrite app_nil_r.
Qed.

Lemma reduce_loop_reps_nonneg (x : list instruction) (acc : list step_reps) :
  Forall reps_nonneg x ->
  Forall (fun sr => 0 <= reps sr) acc ->
  Forall (fun sr => 0 <= reps sr) (reduce_loop acc x).
Proof.
  revert acc. induction x as [|i x IH]; intros acc Hx Hacc; simpl.
  - by apply Forall_rev.
  - inversion Hx as [|? ? Hi Hx']; subst.
    destruct i as [|s r].
    + apply IH; [exact Hx'|]. constructor; [simpl; lia|exact Hacc].
    + simpl in Hi. destruct acc as [|last acc'].
      * apply IH; [exact Hx'|]. constructor; [simpl; lia|constructor].
      * inversion Hacc as [|? ? Hl Hacc']; subst.
        destruct (Qeq_bool (step last) s); apply IH; try exact Hx';
          constructor; simpl; auto; lia.
Qed.

(** The reducer keeps the flattened periods, up to the representation of
    each rational ([Qred]). *)
Lemma flatten_instructions_cons (s : Q) (r : Z) (x : list instruction) :
  flatten_instructions (Instr s r :: x) = repeat s (Z.to_nat r) ++ flatten_instructions x.
Proof. reflexivity. Qed.

Lemma reduce_loop_flatten (x : list instruction) (acc : list step_reps) :
  Forall (fun i => is_wait i = false) x ->
  Forall reps_nonneg x ->
  Forall (fun sr => 0 <= reps sr) acc ->
  map Qred (flatten_reduced (reduce_loop acc x))
  = map Qred (flatten_reduced (rev acc) ++ flatten_instructions x).
Proof.
  revert acc. induction x as [|i x IH]; intros acc Hw Hx Hacc; simpl.
  - by rewrite app_nil_r.
  - inversion Hw as [|? ? Hwi Hw']; inversion Hx as [|? ? Hi Hx']; subst.
    destruct i as [|s r]; [discriminate|]. simpl in Hi.
    rewrite flatten_instructions_cons.
    destruct acc as [|last acc'].
    + rewrite IH; [|exact Hw'|exact Hx'|constructor; [simpl; lia|constructor]].
      unfold flatten_reduced, flatten_instructions, as_instructions. simpl.
      by rewrite app_nil_r.
    + inversion Hacc as [|? ? Hl Hacc']; subst.
      destruct (Qeq_bool (step last) s) eqn:E.
      * rewrite IH; [|exact Hw'|exact Hx'|constructor; [simpl; lia|exact Hacc']].
        simpl. rewrite !flatten_reduced_snoc. simpl.
        rewrite Z2Nat.inj_add by lia. rewrite repeat_app.
        rewrite <- !app_assoc. rewrite !map_app. f_equal. f_equal.
        rewrite !map_repeat.
        apply Qeq_bool_iff, Qred_complete in E. by rewrite E.
      * rewrite IH; [|exact Hw'|exact Hx'|constructor; [simpl; lia|exact Hacc]].
        simpl. rewrite !flatten_reduced_snoc. simpl.
        by rewrite <- !app_assoc.
Qed.

Lemma Forall2_Qeq_of_Qred (l1 l2 : list Q) :
  map Qred l1 = map Qred l2 -> Forall2 Qeq l1 l2.
Proof.
  revert l2. induction l1 as [|a l1 IH]; intros [|b l2] E; try discriminate.
  - constructor.
  - simpl in E. injection E as Eab E. constructor.
    + rewrite <- (Qred_correct a), <- (Qred_correct b), Eab. reflexivity.
    + by apply IH.
Qed.

Lemma qsum_app (l1 l2 : list Q) : (qsum (l1 ++ l2) == qsum l1 + qsum l2)%Q.
Proof.
  induction l1 as [|a l1 IH]; simpl.
  - ring.
  - unfold qsum in *. simpl. rewrite IH. ring.
Qed.

Lemma qsum_repeat (s : Q) (n : nat) : (qsum (repeat s n) == s * inject_Z (Z.of_nat n))%Q.
Proof.
  induction n as [|n IH].
  - simpl. unfold qsum. simpl. ring.
  - unfold qsum in *. simpl repeat. simpl fold_right. rewrite IH.
    rewrite Nat2Z.inj_succ. unfold Z.succ. rewrite inject_Z_plus. ring.
Qed.

Lemma qsum_flatten (x : list instruction) :
  Forall reps_nonneg x -> (qsum (flatten_instructions x) == total_duration x)%Q.
Proof.
  induction x as [|i x IH]; intros Hx.
  - reflexivity.
  - inversion Hx as [|? ? Hi Hx']; subst.
    unfold flatten_instructions in *. simpl map. simpl concat.
    rewrite qsum_app. unfold total_duration in *. simpl map. simpl fold_right.
    rewrite (IH Hx'). destruct i as [|s r].
    + unfold qsum. simpl. ring.
    + simpl in Hi. rewrite qsum_repeat, Z2Nat.id by exact Hi. ring.
Qed.

Lemma qsum_map_Qred (l : list Q) : (qsum (map Qred l) == qsum l)%Q.
Proof.
  induction l as [|a l IH]; unfold qsum in *; simpl.
  - reflexivity.
  - rewrite Qred_correct, IH. reflexivity.
Qed.

Lemma as_instructions_reps_nonneg (l : list step_reps) :
  Forall (fun sr => 0 <= reps sr) l -> Forall reps_nonneg (as_instructions l).
Proof.
  intros H. unfold as_instructions. apply Forall_map.
  eapply Forall_impl; [exact H|]. intros sr Hsr. exact Hsr.
Qed.

(* ------------------------------------------------------------------ *)
(** ** Properties of the expander *)

Lemma toggle_times_le (k : nat) (last d stop_time : Q) :
  Forall (fun t => t <= stop_time)%Q (toggle_times k last d stop_time).
Proof.
  revert last. induction k as [|k IH]; intros last; simpl.
  - constructor.
  - destruct (Qle_bool (last + d) stop_time) eqn:E.
    + constructor; [by apply Qle_bool_iff|apply IH].
    + constructor.
Qed.

Lemma expand_rest_le (last : Q) (ticks : list tick) (clock_limit stop_time : Q) :
  Forall (fun t => t <= stop_time)%Q (expand_rest last ticks clock_limit stop_time).
Proof.
  revert last. induction ticks as [|[n tg] ticks IH]; intros last; simpl.
  - constructor.
  - apply Forall_app; split; [apply toggle_times_le|apply IH].
Qed.

(* ------------------------------------------------------------------ *)
(** ** Properties of add_device *)

Lemma connection_ok_iff (conn : string) :
  connection_ok conn = true <->
  exists prefix channel n,
    split_space conn = [prefix; channel]
    /\ (prefix = "analog"%string \/ prefix = "digital"%string)
    /\ int_of_string channel = Some n.
Proof.
  unfold connection_ok.
  destruct (split_space conn) as [|prefix [|channel [|x l]]]; split;
    try discriminate; try (intros (p & c & n & E & _); discriminate).
  - destruct (String.eqb_spec prefix "analog"), (String.eqb_spec prefix "digital");
      simpl; intros H;
      destruct (int_of_string channel) as [k|] eqn:E; try discriminate;
      exists prefix, channel, k; repeat split; auto; congruence.
  - intros (p & c & n & E & Hp & Hn). injection E as -> ->. rewrite Hn.
    destruct Hp as [->| ->]; reflexivity.
Qed.

Example connection_ok_examples :
  connection_ok "digital 3" = true /\ connection_ok "analog 0" = true
  /\ connection_ok "digital -1" = true /\ connection_ok "analogue 0" = false
  /\ connection_ok "digital" = false /\ connection_ok "digital  3" = false
  /\ connection_ok "digital x" = false.
Proof. repeat split. Qed.

(* ------------------------------------------------------------------ *)
(** ** Properties of the worker *)

Lemma send_clocks_send_fails (transport : hw_call -> bool)
    (ad : list (string * list Q)) (fresh_program : bool) (i : Z) (o : string)
    (clock : list tick) (rest : list (string * list tick))
    (final_state : gmap string Q) (ws : wstate) :
  (fresh_program || np_any_ne tick_eqb clock (sc_clocks (smart ws) !! o)) = true ->
  transport (SendPseudoclock 0 i clock) = false ->
  let '(ws', r) := send_clocks transport ad fresh_program i ((o, clock) :: rest)
                     final_state ws in
  r = Err TransmissionFailure /\ sc_clocks (smart ws') !! o = Some clock.
Proof.
  intros Hdec Htr. simpl. unfold mbind, M_bind, get_cache, cache_clock, send.
  simpl. rewrite Hdec. simpl. rewrite Htr. split; [reflexivity|].
  apply lookup_insert_eq.
Qed.

Lemma send_analog_send_fails (transport : hw_call -> bool)
    (limits : list (string * (Q * Q))) (fresh_program : bool) (i : Z) (o : string)
    (data : list Q) (rest : list (string * list Q))
    (final_state : gmap string Q) (ws : wstate) :
  (fresh_program || np_any_ne Qeq_bool data (sc_data (smart ws) !! o)) = true ->
  data <> [] ->
  transport (let '(range_min, range_max) :=
               match group_get o limits with Some lim => lim | None => (0%Q, 5%Q) end in
             SendAnalogData 0 i range_min range_max data) = false ->
  let '(ws', r) := send_analog transport limits fresh_program i ((o, data) :: rest)
                     final_state ws in
  r = Err TransmissionFailure /\ sc_data (smart ws') !! o = Some data.
Proof.
  intros Hdec Hne Htr. simpl. unfold mbind, M_bind, get_cache, cache_data, send.
  simpl. rewrite Hdec.
  destruct (List.last (map Some data) None) as [v|] eqn:Elast.
  - destruct (group_get o limits) as [[mn mx]|]; simpl in Htr |- *; rewrite Htr;
      (split; [reflexivity|apply lookup_insert_eq]).
  - exfalso. revert Hne Elast. clear. induction data as [|x data IH]; intros Hne E.
    + by apply Hne.
    + destruct data as [|y data]; [discriminate|]. apply IH; [discriminate|exact E].
Qed.

(* ------------------------------------------------------------------ *)
(** * Claims *)

(** C1 (counterexample): for the reduced clock
    [{step 0.1, reps 3}, {step 0.2, reps 2}], a digital output starting at 0
    and a clock limit of 10, the encoder does not return
    [(0,0), (0,2), (1,1)]. *)
Lemma encoder_claimed_ticks_refuted :
  convert_to_clocks_and_toggles example_clock (DigitalOut [0]) 10
  <> Ok [(0, 0); (0, 2); (1, 1)].
Proof. vm_compute. congruence. Qed.

(** C1 (amended): on that input the encoder returns [(0,0), (0,1), (1,1)]:
    the first tick holds the initial state, the residual two repeats of the
    first instruction give one toggle, the second instruction one toggle. *)
Lemma encoder_example_ticks :
  convert_to_clocks_and_toggles example_clock (DigitalOut [0]) 10
  = Ok [(0, 0); (0, 1); (1, 1)].
Proof. reflexivity. Qed.

(** C2 (code bug): after a run in which the analog channel's clock and data
    are unchanged (so not sent), the final state reports nothing for the
    analog channel, and for a digital channel with initial state 1 and no
    toggles it reports 2 instead of [(1 + 0) mod 2 = 1]. *)
Lemma final_state_digital_parity_divergence :
  let g := mk_device_group
             [("analog 0"%string, [(0, 0)]); ("digital 0"%string, [(0, 1)])]
             [("analog 0"%string, [1#2])] [] in
  let ws := mk_wstate
              (mk_smart_cache {[ "analog 0"%string := [(0, 0)] ]}
                              {[ "analog 0"%string := [1#2] ]}) [] in
  match transition_to_buffered (fun _ => true) g false ws with
  | (_, Ok fs) =>
      fs !! "digital 0"%string = Some (inject_Z 2)
      /\ fs !! "analog 0"%string = None
  | (_, Err _) => False
  end.
Proof. vm_compute. split; reflexivity. Qed.

(** C3 (counterexample): on a fresh worker, when sending the pseudoclock of
    ["digital 0"] fails, the run fails and the cache already holds the new
    clock (it held nothing before). *)
Lemma cache_updated_before_failed_send :
  let g := mk_device_group [("digital 0"%string, [(0, 1)])] [] [] in
  sc_clocks (smart empty_worker) !! "digital 0"%string = None
  /\ match transition_to_buffered (fun _ => false) g false empty_worker with
     | (ws', r) =>
         r = Err TransmissionFailure
         /\ sc_clocks (smart ws') !! "digital 0"%string = Some [(0, 1)]
     end.
Proof. vm_compute. split; [reflexivity|split; reflexivity]. Qed.

(** C3 (amended): when the transmit decision for a channel is positive, its
    cache entry is replaced by the new data before the hardware call; if
    that call fails the failure propagates and the cache keeps the new data
    (for clocks, and for non-empty analog data; the failing analog call is
    the one made, with the output's limits or the default [(0, 5)]). *)
Theorem cache_written_before_transmission :
  (forall transport ad fresh_program i o clock rest final_state ws,
     (fresh_program || np_any_ne tick_eqb clock (sc_clocks (smart ws) !! o)) = true ->
     transport (SendPseudoclock 0 i clock) = false ->
     let '(ws', r) := send_clocks transport ad fresh_program i ((o, clock) :: rest)
                        final_state ws in
     r = Err TransmissionFailure /\ sc_clocks (smart ws') !! o = Some clock)
  /\
  (forall transport limits fresh_program i o data rest final_state ws,
     (fresh_program || np_any_ne Qeq_bool data (sc_data (smart ws) !! o)) = true ->
     data <> [] ->
     transport (let '(range_min, range_max) :=
                  match group_get o limits with Some lim => lim | None => (0%Q, 5%Q) end in
                SendAnalogData 0 i range_min range_max data) = false ->
     let '(ws', r) := send_analog transport limits fresh_program i ((o, data) :: rest)
                        final_state ws in
     r = Err TransmissionFailure /\ sc_data (smart ws') !! o = Some data).
Proof.
  split.
  - intros. by apply send_clocks_send_fails.
  - intros. by apply send_analog_send_fails.
Qed.

(** C4 (code bug): the cached analog data of ["analog 0"] is [[0]] and the
    new data is [[0, 0]]; numpy broadcasts the one-element array, finds no
    differing element, and nothing is sent although the data changed. *)
Lemma smart_cache_broadcast_skips_changed_data :
  let g := mk_device_group [("analog 0"%string, [(0, 0)])]
             [("analog 0"%string, [0%Q; 0%Q])] [] in
  let ws := mk_wstate
              (mk_smart_cache {[ "analog 0"%string := [(0, 0)] ]}
                              {[ "analog 0"%string := [0%Q] ]}) [] in
  match transition_to_buffered (fun _ => true) g false ws with
  | (ws', r) => is_ok r = true /\ sent ws' = []
  end.
Proof. vm_compute. split; reflexivity. Qed.

(** C5 (code bug): a period-0 instruction following a ['WAIT'] is merged
    into the wait element, which then has 3 repeats. *)
Lemma wait_marker_absorbs_zero_period :
  reduce_clock_instructions [WAIT; Instr 0 2] = [mk_step_reps 0 3].
Proof. reflexivity. Qed.

(** C6 (counterexample): two consecutive waits give two [{0, 1}] elements,
    which a second reduction merges into one [{0, 2}]. *)
Lemma reduce_not_idempotent_two_waits :
  reduce_clock_instructions (as_instructions (reduce_clock_instructions [WAIT; WAIT]))
  <> reduce_clock_instructions [WAIT; WAIT].
Proof. vm_compute. congruence. Qed.

(** C6 (amended): for every clock without ['WAIT'] markers, reducing the
    reduced list again returns it unchanged. *)
Theorem reduce_idempotent_without_waits (x : list instruction) :
  Forall (fun i => is_wait i = false) x ->
  reduce_clock_instructions (as_instructions (reduce_clock_instructions x))
  = reduce_clock_instructions x.
Proof.
  intros Hw. unfold reduce_clock_instructions at 1.
  rewrite (reduce_loop_distinct (reduce_clock_instructions x) []); [reflexivity| |exact I].
  apply reduce_loop_steps_distinct; [exact Hw|reflexivity].
Qed.

Lemma reduce_idempotent_without_waits_witness :
  Forall (fun i => is_wait i = false) [Instr 1 2; Instr 1 3; Instr (1#2) 1]
  /\ reduce_clock_instructions
       (as_instructions (reduce_clock_instructions [Instr 1 2; Instr 1 3; Instr (1#2) 1]))
     = reduce_clock_instructions [Instr 1 2; Instr 1 3; Instr (1#2) 1].
Proof.
  split.
  - repeat constructor.
  - apply reduce_idempotent_without_waits. repeat constructor.
Defined.

Lemma cache_written_before_transmission_witness :
  (let '(ws', r) := send_clocks (fun _ => false) [] false 0
                      [("digital 0"%string, [(0, 1)])] ∅ empty_worker in
   r = Err TransmissionFailure /\ sc_clocks (smart ws') !! "digital 0"%string = Some [(0, 1)])
  /\
  (let transport := fun c => match c with
                             | SendAnalogData _ _ _ mx _ => negb (Qeq_bool mx 5)
                             | _ => true
                             end in
   let '(ws', r) := send_analog transport [] false 0
                      [("analog 0"%string, [1%Q])] ∅ empty_worker in
   r = Err TransmissionFailure /\ sc_data (smart ws') !! "analog 0"%string = Some [1%Q]).
Proof.
  split.
  - apply (proj1 cache_written_before_transmission); reflexivity.
  - apply (proj2 cache_written_before_transmission); [reflexivity|discriminate|reflexivity].
Defined.

(** C7 (counterexample): with a clock limit of 1 and a stop time of 1, the
    first tick [(10, 0)] contributes the time 10, greater than the stop time. *)
Lemma expand_first_tick_exceeds_stop :
  expand_clock [(10, 0)] 1 1 = [10%Q]
  /\ ~ Forall (fun t => t <= 1)%Q (expand_clock [(10, 0)] 1 1).
Proof.
  split; [reflexivity|]. vm_compute. intros H. inversion H as [|? ? Hle _].
  apply Hle. reflexivity.
Qed.

(** C7 (amended): for a positive clock limit, the first emitted time is
    [n_clocks / clock_limit] of the first tick, emitted without comparing
    it with the stop time, and every later emitted time is at most the stop
    time. *)
Theorem expand_clock_later_times_bounded (ticks : list tick) (clock_limit stop_time : Q) :
  (0 < clock_limit)%Q ->
  hd_error (expand_clock ticks clock_limit stop_time)
    = option_map (fun t => inject_Z t.1 / clock_limit)%Q (hd_error ticks)
  /\ Forall (fun t => t <= stop_time)%Q (tl (expand_clock ticks clock_limit stop_time)).
Proof.
  intros _. destruct ticks as [|[n tg] rest]; simpl.
  - split; [reflexivity|constructor].
  - split; [reflexivity|apply expand_rest_le].
Qed.

Lemma expand_clock_later_times_bounded_witness :
  (0 < 10)%Q
  /\ hd_error (expand_clock [(4, 0); (1, 5)] 10 1)
     = option_map (fun t => inject_Z t.1 / 10)%Q (hd_error [(4, 0); (1, 5)])
  /\ Forall (fun t => t <= 1)%Q (tl (expand_clock [(4, 0); (1, 5)] 10 1)).
Proof.
  split; [reflexivity|].
  apply expand_clock_later_times_bounded. reflexivity.
Defined.

(** C8 (counterexample): for an empty clock the encoder returns an empty
    list for an output of an unsupported class instead of raising. *)
Lemma encoder_empty_clock_no_kind_check :
  convert_to_clocks_and_toggles [] (OtherOutput "StaticAnalogOut") 10 = Ok [].
Proof. reflexivity. Qed.

(** C8 (amended): for an output that is neither an [AnalogOut] nor a
    [DigitalOut], the encoder raises the unsupported-output-type
    [LabscriptError] on every non-empty clock, and returns the empty list on
    the empty clock. *)
Theorem encoder_unsupported_kind (clock : list step_reps) (class_name : string)
    (clock_limit : Q) :
  convert_to_clocks_and_toggles clock (OtherOutput class_name) clock_limit
  = match clock with
    | [] => Ok []
    | _ :: _ => Err (LabscriptError (unsupported_msg class_name))
    end.
Proof. destruct clock; reflexivity. Qed.

(** C9 (counterexample): an intermediate device that already has an output
    rejects a second output although its connection string ["digital 3"] is
    well formed. *)
Lemma add_device_second_output_rejected :
  let d0 := mk_device "Analog output" "analog0" "analog 0" in
  let d1 := mk_device "Digital output" "digi0" "digital 3" in
  let self := mk_intermediate_device "fpga_output_device0" [d0] (Some d0) in
  connection_ok (connection d1) = true /\ is_ok (add_device self d1) = false.
Proof. split; reflexivity. Qed.

(** C9 (amended): attaching an output to an intermediate device with no
    output yet succeeds iff its connection string, split at single spaces,
    is exactly two pieces, the first ["analog"] or ["digital"] and the
    second accepted by Python's [int()]; attaching an output to a device
    that already has one fails whatever its connection string. *)
Theorem add_device_connection_iff (self : intermediate_device) (d : device) :
  (child_devices self = [] ->
   is_ok (add_device self d) = true <->
   exists prefix channel n,
     split_space (connection d) = [prefix; channel]
     /\ (prefix = "analog"%string \/ prefix = "digital"%string)
     /\ int_of_string channel = Some n)
  /\ (child_devices self <> [] -> is_ok (add_device self d) = false).
Proof.
  split.
  - intros H. rewrite <- connection_ok_iff. unfold add_device. rewrite H.
    destruct (connection_ok (connection d)); split; auto.
  - intros H. unfold add_device. by destruct (child_devices self).
Qed.

Lemma add_device_connection_iff_witness :
  let self0 := mk_intermediate_device "fpga_output_device0" [] None in
  let d0 := mk_device "Analog output" "analog0" "analog 0" in
  let self1 := mk_intermediate_device "fpga_output_device0" [d0] (Some d0) in
  let d := mk_device "Digital output" "digi0" digital_minus_tab_3 in
  child_devices self0 = []
  /\ (is_ok (add_device self0 d) = true <->
      exists prefix channel n,
        split_space (connection d) = [prefix; channel]
        /\ (prefix = "analog"%string \/ prefix = "digital"%string)
        /\ int_of_string channel = Some n)
  /\ child_devices self1 <> []
  /\ is_ok (add_device self1 d) = false.
Proof.
  intros self0 d0 self1 d.
  split; [reflexivity|]. split; [apply (proj1 (add_device_connection_iff self0 d)); reflexivity|].
  assert (H1 : child_devices self1 <> []) by discriminate.
  split; [exact H1|exact (proj2 (add_device_connection_iff self1 d) H1)].
Defined.

(** C10: for a clock without ['WAIT'] markers and with non-negative repeat
    counts, the reduced list has the same flattened periods (equal as
    numbers, in the same order) and the same total duration. *)
Theorem reduce_preserves_flattened_periods (x : list instruction) :
  Forall (fun i => is_wait i = false) x ->
  Forall reps_nonneg x ->
  Forall2 Qeq (flatten_reduced (reduce_clock_instructions x)) (flatten_instructions x)
  /\ (total_duration (as_instructions (reduce_clock_instructions x))
      == total_duration x)%Q.
Proof.
  intros Hw Hr.
  assert (Hflat : map Qred (flatten_reduced (reduce_clock_instructions x))
                  = map Qred (flatten_instructions x)).
  { unfold reduce_clock_instructions. rewrite reduce_loop_flatten; auto. }
  split.
  - by apply Forall2_Qeq_of_Qred.
  - rewrite <- qsum_flatten
      by (apply as_instructions_reps_nonneg, reduce_loop_reps_nonneg; auto).
    rewrite <- (qsum_flatten x Hr).
    fold (flatten_reduced (reduce_clock_instructions x)).
    rewrite <- qsum_map_Qred, Hflat, qsum_map_Qred. reflexivity.
Qed.

Lemma reduce_preserves_flattened_periods_witness :
  Forall (fun i => is_wait i = false) [Instr 1 2; Instr 1 3; Instr (1#2) 4]
  /\ Forall reps_nonneg [Instr 1 2; Instr 1 3; Instr (1#2) 4]
  /\ Forall2 Qeq (flatten_reduced (reduce_clock_instructions [Instr 1 2; Instr 1 3; Instr (1#2) 4]))
       (flatten_instructions [Instr 1 2; Instr 1 3; Instr (1#2) 4])
  /\ (total_duration (as_instructions (reduce_clock_instructions [Instr 1 2; Instr 1 3; Instr (1#2) 4]))
      == total_duration [Instr 1 2; Instr 1 3; Instr (1#2) 4])%Q.
Proof.
  split; [repeat constructor|]. split; [repeat constructor; simpl; lia|].
  apply reduce_preserves_flattened_periods; repeat constructor; simpl; lia.
Defined.

(* ------------------------------------------------------------------ *)
(** ** Properties of program_manual *)

Section ManualProps.

Variable send_realtime_value : realtime_call -> Q.

Lemma program_manual_loop_union values m st st' m' (c0 : gmap string Q) :
  program_manual_loop send_realtime_value values m st = (st', XOk m') ->
  output_values st = m ∪ c0 ->
  output_values st' = m' ∪ c0.
Proof.
  revert m st. induction values as [|[k v] rest IH]; intros m st Hrun Hc; simpl in Hrun.
  - by injection Hrun as <- <-.
  - destruct (value_changed v (output_values st !! k)); [|by eapply IH].
    destruct (split_ws k) as [|ty [|ch [|]]]; try discriminate.
    destruct (int_of_string ch); [|discriminate].
    eapply IH; [exact Hrun|]. simpl. by rewrite Hc, insert_union_l.
Qed.

Lemma program_manual_loop_cached values m st st' m' :
  program_manual_loop send_realtime_value values m st = (st', XOk m') ->
  (forall k v, m !! k = Some v -> output_values st !! k = Some v) ->
  forall k v, m' !! k = Some v -> output_values st' !! k = Some v.
Proof.
  revert m st. induction values as [|[k0 v0] rest IH]; intros m st Hrun Hc; simpl in Hrun.
  - by injection Hrun as <- <-.
  - destruct (value_changed v0 (output_values st !! k0)); [|by eapply IH].
    destruct (split_ws k0) as [|ty [|ch [|]]]; try discriminate.
    destruct (int_of_string ch); [|discriminate].
    eapply IH; [exact Hrun|]. simpl. intros k v Hk.
    destruct (decide (k = k0)) as [->|Hne].
    + rewrite lookup_insert_eq in Hk |- *. exact Hk.
    + rewrite lookup_insert_ne in Hk |- * by congruence. auto.
Qed.

Lemma program_manual_loop_unchanged values m st :
  (forall k v, In (k, v) values -> output_values st !! k = Some v) ->
  program_manual_loop send_realtime_value values m st = (st, XOk m).
Proof.
  revert m. induction values as [|[k v] rest IH]; intros m H; simpl; [done|].
  rewrite (H k v (or_introl eq_refl)). simpl. rewrite Qeq_bool_refl. simpl.
  apply IH. intros k' v' Hin. apply H. by right.
Qed.

Lemma program_manual_loop_untouched values m st st' m' k :
  program_manual_loop send_realtime_value values m st = (st', XOk m') ->
  ~ In k (map fst values) ->
  m' !! k = m !! k /\ output_values st' !! k = output_values st !! k.
Proof.
  revert m st. induction values as [|[k0 v0] rest IH]; intros m st Hrun Hk; simpl in Hrun.
  - by injection Hrun as <- <-.
  - simpl in Hk. destruct (value_changed v0 (output_values st !! k0)); [|eapply IH; eauto].
    destruct (split_ws k0) as [|ty [|ch [|]]]; try discriminate.
    destruct (int_of_string ch); [|discriminate].
    destruct (IH _ _ Hrun) as [H1 H2]; [tauto|]. simpl in H1, H2.
    rewrite lookup_insert_ne in H1, H2 by (intros ->; tauto). auto.
Qed.

Lemma program_manual_loop_changed values m st st' m' :
  NoDup (map fst values) ->
  program_manual_loop send_realtime_value values m st = (st', XOk m') ->
  forall name v, In (name, v) values ->
  (is_Some (m' !! name) <->
   is_Some (m !! name) \/ value_changed v (output_values st !! name) = true).
Proof.
  revert m st. induction values as [|[k0 v0] rest IH]; intros m st Hnd Hrun name v Hin;
    [destruct Hin|].
  simpl in Hnd. apply NoDup_cons in Hnd as [Hk0 Hnd]. simpl in Hrun.
  assert (Hnm : name = k0 -> v = v0).
  { intros ->. destruct Hin as [E|E]; [congruence|].
    exfalso. apply Hk0. apply list_elem_of_In, in_map_iff. by exists (k0, v). }
  destruct (decide (name = k0)) as [->|Hne].
  - specialize (Hnm eq_refl) as ->.
    assert (Hnot : ~ In k0 (map fst rest)) by (by rewrite <- list_elem_of_In).
    destruct (value_changed v0 (output_values st !! k0)) eqn:Ech.
    + destruct (split_ws k0) as [|ty [|ch [|]]]; try discriminate.
      destruct (int_of_string ch); [|discriminate].
      destruct (program_manual_loop_untouched _ _ _ _ _ _ Hrun Hnot) as [H1 _].
      rewrite H1, lookup_insert_eq. split; [by right|]. intros _. eexists; reflexivity.
    + destruct (program_manual_loop_untouched _ _ _ _ _ _ Hrun Hnot) as [H1 _].
      rewrite H1. split; [by left|]. intros [H|H]; [exact H|discriminate].
  - destruct Hin as [E|Hin]; [congruence|].
    destruct (value_changed v0 (output_values st !! k0)).
    + destruct (split_ws k0) as [|ty [|ch [|]]]; try discriminate.
      destruct (int_of_string ch); [|discriminate].
      rewrite (IH _ _ Hnd Hrun name v Hin). simpl.
      by rewrite !lookup_insert_ne by congruence.
    + exact (IH _ _ Hnd Hrun name v Hin).
Qed.

(** After a successful [program_manual], the cache
    [smart_cache['output_values']] is the old cache updated with the
    returned dictionary [modified_values]. *)
Theorem program_manual_cache_is_union values st st' m :
  program_manual send_realtime_value values st = (st', XOk m) ->
  output_values st' = m ∪ output_values st.
Proof.
  intros H. eapply program_manual_loop_union; [exact H|].
  by rewrite (left_id_L ∅ (∪)).
Qed.

(** Feeding the values returned by a successful [program_manual] back
    into it changes nothing: no realtime call is made, the cache is
    unchanged and the returned dictionary is empty. *)
Theorem program_manual_feedback_sends_nothing values st st' m :
  program_manual send_realtime_value values st = (st', XOk m) ->
  program_manual send_realtime_value (map_to_list m) st' = (st', XOk ∅).
Proof.
  intros H. apply program_manual_loop_unchanged. intros k v Hin.
  eapply program_manual_loop_cached; [exact H| |].
  - intros k' v'. by rewrite lookup_empty.
  - by apply elem_of_map_to_list, list_elem_of_In.
Qed.

(** With distinct output names, a successful [program_manual] returns an
    entry for exactly the outputs whose value differs from the cached one
    (or has no cached value): an output of [values] has an entry iff its
    value changed, and every entry is for an output of [values]. *)
Theorem program_manual_returns_changed_outputs values st st' m :
  NoDup (map fst values) ->
  program_manual send_realtime_value values st = (st', XOk m) ->
  (forall name v, In (name, v) values ->
     (is_Some (m !! name) <-> value_changed v (output_values st !! name) = true))
  /\ (forall name, is_Some (m !! name) -> In name (map fst values)).
Proof.
  intros Hnd H. split.
  - intros name v Hin.
    rewrite (program_manual_loop_changed _ _ _ _ _ Hnd H name v Hin).
    rewrite lookup_empty. split; [intros [[x Hx]|Hx]; [discriminate|exact Hx]|by right].
  - intros name Hs. destruct (in_dec string_dec name (map fst values)) as [Hin|Hin];
      [exact Hin|exfalso].
    destruct (program_manual_loop_untouched _ _ _ _ _ _ H Hin) as [H1 _].
    rewrite H1, lookup_empty in Hs. by apply is_Some_None in Hs.
Qed.

End ManualProps.


Lemma program_manual_cache_is_union_witness :
  exists st' m,
    program_manual echo_board manual_example_values manual_example_state = (st', XOk m)
    /\ output_values st' = m ∪ output_values manual_example_state.
Proof.
  eexists _, _.
  assert (H : program_manual echo_board manual_example_values manual_example_state
              = (_, XOk _)) by reflexivity.
  split; [exact H|exact (program_manual_cache_is_union _ _ _ _ _ H)].
Defined.

Lemma program_manual_feedback_sends_nothing_witness :
  exists st' m,
    program_manual echo_board manual_example_values manual_example_state = (st', XOk m)
    /\ program_manual echo_board (map_to_list m) st' = (st', XOk ∅).
Proof.
  eexists _, _.
  assert (H : program_manual echo_board manual_example_values manual_example_state
              = (_, XOk _)) by reflexivity.
  split; [exact H|exact (program_manual_feedback_sends_nothing _ _ _ _ _ H)].
Defined.

Lemma program_manual_returns_changed_outputs_witness :
  exists st' m,
    NoDup (map fst manual_example_values)
    /\ program_manual echo_board manual_example_values manual_example_state = (st', XOk m)
    /\ (forall name v, In (name, v) manual_example_values ->
          (is_Some (m !! name) <->
           value_changed v (output_values manual_example_state !! name) = true))
    /\ (forall name, is_Some (m !! name) -> In name (map fst manual_example_values)).
Proof.
  eexists _, _.
  assert (Hnd : NoDup (map fst manual_example_values)) by (vm_compute; repeat constructor; set_solver).
  assert (H : program_manual echo_board manual_example_values manual_example_state
              = (_, XOk _)) by reflexivity.
  split; [exact Hnd|split; [exact H|]].
  exact (program_manual_returns_changed_outputs _ _ _ _ _ Hnd H).
Defined.

(* ------------------------------------------------------------------ *)
(** ** Further properties of the codec *)

Lemma last_default_irrel {A} (l : list A) (d1 d2 : A) :
  l <> [] -> List.last l d1 = List.last l d2.
Proof.
  induction l as [|a l IH]; intros Hne; [congruence|].
  destruct l as [|b l]; [reflexivity|]. apply IH. discriminate.
Qed.

Lemma last_cons_default {A} (b : A) (l : list A) (d : A) :
  List.last (b :: l) d = List.last l b.
Proof.
  destruct l as [|c l]; [reflexivity|].
  change (List.last (c :: l) d = List.last (c :: l) b).
  apply last_default_irrel. discriminate.
Qed.

Lemma sorted_app_last (a : Q) (l r : list Q) :
  Sorted Qle (a :: l) -> Sorted Qle (List.last l a :: r) -> Sorted Qle (a :: l ++ r).
Proof.
  revert a. induction l as [|b l IH]; intros a H1 H2; [exact H2|].
  apply Sorted_inv in H1 as [H1 Hr]. apply HdRel_inv in Hr.
  rewrite last_cons_default in H2. cbn [app].
  constructor; [exact (IH b H1 H2)|]. by constructor.
Qed.

Lemma toggle_times_sorted (k : nat) (last d stop_time : Q) :
  (0 <= d)%Q -> Sorted Qle (last :: toggle_times k last d stop_time).
Proof.
  intros Hd. revert last. induction k as [|k IH]; intros last; simpl.
  - repeat constructor.
  - destruct (Qle_bool (last + d) stop_time); [|repeat constructor].
    constructor; [apply IH|]. constructor.
    rewrite <- (Qplus_0_r last) at 1. apply Qplus_le_compat; [apply Qle_refl|exact Hd].
Qed.

Lemma expand_rest_sorted (last : Q) (ticks : list tick) (clock_limit stop_time : Q) :
  (0 < clock_limit)%Q -> Forall (fun t => 0 <= t.1) ticks ->
  Sorted Qle (last :: expand_rest last ticks clock_limit stop_time).
Proof.
  intros Hcl. revert last. induction ticks as [|[n tg] ticks IH]; intros last Hf; simpl.
  - repeat constructor.
  - apply Forall_cons in Hf as [Hn Hf]. simpl in Hn.
    apply sorted_app_last; [|apply IH; exact Hf].
    apply toggle_times_sorted. apply Qle_shift_div_l; [exact Hcl|].
    rewrite Qmult_0_l. change 0%Q with (inject_Z 0). rewrite <- Zle_Qle. exact Hn.
Qed.

Lemma toggle_times_length (k : nat) (last d stop_time : Q) :
  (length (toggle_times k last d stop_time) <= k)%nat.
Proof.
  revert last. induction k as [|k IH]; intros last; simpl; [lia|].
  destruct (Qle_bool (last + d) stop_time); simpl; [specialize (IH (last + d)%Q)|]; lia.
Qed.

Lemma expand_rest_length (last : Q) (ticks : list tick) (clock_limit stop_time : Q) :
  (length (expand_rest last ticks clock_limit stop_time)
   <= sum_list (map (fun t => Z.to_nat t.2) ticks))%nat.
Proof.
  revert last. induction ticks as [|[n tg] ticks IH]; intros last; simpl; [lia|].
  rewrite length_app.
  pose proof (toggle_times_length (Z.to_nat tg) last (inject_Z n / clock_limit) stop_time).
  specialize (IH (List.last (toggle_times (Z.to_nat tg) last (inject_Z n / clock_limit)
                                stop_time) last)).
  lia.
Qed.

Lemma fold_add_app (l1 l2 : list Z) :
  fold_right Z.add 0 (l1 ++ l2) = fold_right Z.add 0 l1 + fold_right Z.add 0 l2.
Proof. induction l1 as [|a l1 IH]; simpl; lia. Qed.

Lemma total_reps_app (x y : list instruction) :
  total_reps (x ++ y) = total_reps x + total_reps y.
Proof. unfold total_reps. by rewrite map_app, fold_add_app. Qed.

Lemma total_reps_rev (acc : list step_reps) :
  total_reps (as_instructions (rev acc)) = total_reps (as_instructions acc).
Proof.
  induction acc as [|a acc IH]; [reflexivity|].
  cbn [rev]. unfold as_instructions in *. rewrite map_app, total_reps_app, IH.
  unfold total_reps. cbn [map fold_right]. lia.
Qed.

Lemma reduce_loop_total_reps (acc : list step_reps) (x : list instruction) :
  total_reps (as_instructions (reduce_loop acc x))
  = total_reps (as_instructions acc) + total_reps x.
Proof.
  revert acc. induction x as [|[|s r] x IH]; intros acc; simpl.
  - rewrite total_reps_rev. unfold total_reps. simpl. lia.
  - rewrite IH. unfold total_reps. simpl. lia.
  - destruct acc as [|l acc'].
    + rewrite IH. unfold total_reps. simpl. lia.
    + destruct (Qeq_bool (step l) s); rewrite IH; unfold total_reps; simpl; lia.
Qed.

Lemma reduce_loop_length (acc : list step_reps) (x : list instruction) :
  (length acc <= length (reduce_loop acc x) <= length acc + length x)%nat.
Proof.
  revert acc. induction x as [|[|s r] x IH]; intros acc; simpl.
  - rewrite length_rev. lia.
  - specialize (IH (mk_step_reps 0 1 :: acc)). cbn [length] in IH |- *. lia.
  - destruct acc as [|l acc'].
    + specialize (IH [mk_step_reps s r]). cbn [length] in IH |- *. lia.
    + destruct (Qeq_bool (step l) s).
      * specialize (IH (mk_step_reps (step l) (reps l + r) :: acc')). cbn [length] in IH |- *. lia.
      * specialize (IH (mk_step_reps s r :: l :: acc')). cbn [length] in IH |- *. lia.
Qed.

Lemma later_ticks_edges (rest : list step_reps) (clock_limit : Q) :
  fold_right Z.add 0 (map (fun t : tick => 1 + t.2) (later_ticks rest clock_limit))
  = total_reps (as_instructions rest).
Proof.
  induction rest as [|t rest IH]; [reflexivity|].
  simpl. rewrite IH. unfold total_reps. simpl. lia.
Qed.

Lemma convert_edges (clock : list step_reps) (out : output) (clock_limit : Q)
    (ts : list tick) :
  convert_to_clocks_and_toggles clock out clock_limit = Ok ts ->
  clock <> [] ->
  1 + clock_edges ts = total_reps (as_instructions clock).
Proof.
  intros H Hne. destruct clock as [|t rest]; [congruence|]. simpl in H.
  destruct (match out with
            | DigitalOut (x :: _) => Ok x
            | DigitalOut [] => Err IndexError
            | AnalogOut _ => Ok 0
            | OtherOutput name => Err (LabscriptError (unsupported_msg name))
            end) as [init|e]; [|discriminate].
  unfold clock_edges.
  destruct (reps t - 1 =? 0) eqn:E; injection H as <-; simpl;
    rewrite later_ticks_edges; unfold total_reps; simpl; lia.
Qed.

Lemma reduce_nil_iff (x : list instruction) :
  reduce_clock_instructions x = [] <-> x = [].
Proof.
  unfold reduce_clock_instructions. split; [|intros ->; reflexivity].
  destruct x as [|[|s r] x]; [done| |]; simpl; intros H.
  - pose proof (reduce_loop_length [mk_step_reps 0 1] x) as L. rewrite H in L. simpl in L. lia.
  - pose proof (reduce_loop_length [mk_step_reps s r] x) as L. rewrite H in L. simpl in L. lia.
Qed.

(** The reducer keeps the total number of clock periods: the sum of the
    [reps] of the reduced list is the sum of the [reps] of the input, a
    ['WAIT'] counting as one. *)
Theorem reduce_preserves_total_reps (x : list instruction) :
  total_reps (as_instructions (reduce_clock_instructions x)) = total_reps x.
Proof. unfold reduce_clock_instructions. by rewrite reduce_loop_total_reps. Qed.

(** The reducer never lengthens the instruction list, and returns an empty
    list only for an empty clock. *)
Theorem reduce_length_bounds (x : list instruction) :
  (length (reduce_clock_instructions x) <= length x)%nat
  /\ (reduce_clock_instructions x = [] <-> x = []).
Proof.
  split; [|apply reduce_nil_iff].
  unfold reduce_clock_instructions. pose proof (reduce_loop_length [] x). simpl in *. lia.
Qed.

(** Without ['WAIT'] markers, no two adjacent elements of the reduced
    list have equal periods. *)
Theorem reduce_adjacent_periods_differ (x : list instruction) :
  Forall (fun i => is_wait i = false) x ->
  steps_distinct (reduce_clock_instructions x) = true.
Proof. intros H. by apply reduce_loop_steps_distinct. Qed.

(** Reducing then encoding a non-empty pseudoclock clock keeps its number
    of clock periods: the first tick accounts for one period and every
    later [(n_clocks, toggles)] row for [toggles + 1]; together they make
    the sum of the [reps] of the instructions, a ['WAIT'] counting as one. *)
Theorem encoder_ticks_count_periods (x : list instruction) (out : output)
    (clock_limit : Q) (ts : list tick) :
  convert_to_clocks_and_toggles (reduce_clock_instructions x) out clock_limit = Ok ts ->
  x <> [] ->
  1 + clock_edges ts = total_reps x.
Proof.
  intros H Hne. rewrite (convert_edges _ _ _ _ H).
  - unfold reduce_clock_instructions. by rewrite reduce_loop_total_reps.
  - intros E. apply reduce_nil_iff in E. congruence.
Qed.

(** When the clock limit is positive and no row after the first has a
    negative [n_clocks], the expanded clock times are in nondecreasing
    order. *)
Theorem expand_clock_sorted (ticks : list tick) (clock_limit stop_time : Q) :
  (0 < clock_limit)%Q -> Forall (fun t => 0 <= t.1) (tl ticks) ->
  Sorted Qle (expand_clock ticks clock_limit stop_time).
Proof.
  intros Hcl Hf. destruct ticks as [|[n tg] rest]; [constructor|].
  simpl. by apply expand_rest_sorted.
Qed.

(** [expand_clock] returns at most one time for the first row plus
    [max(toggles, 0)] times for each later row ([range(toggles)] is empty
    for a negative count). *)
Theorem expand_clock_length_bound (ticks : list tick) (clock_limit stop_time : Q) :
  (length (expand_clock ticks clock_limit stop_time)
   <= match ticks with
      | [] => 0
      | _ :: rest => S (sum_list (map (fun t => Z.to_nat t.2) rest))
      end)%nat.
Proof.
  destruct ticks as [|[n tg] rest]; [simpl; lia|].
  simpl. pose proof (expand_rest_length (inject_Z n / clock_limit) rest clock_limit stop_time).
  lia.
Qed.

Lemma reduce_adjacent_periods_differ_witness :
  Forall (fun i => is_wait i = false) [Instr 1 2; Instr 1 3; Instr (1#2) 4; Instr 1 1]
  /\ steps_distinct (reduce_clock_instructions
                       [Instr 1 2; Instr 1 3; Instr (1#2) 4; Instr 1 1]) = true.
Proof.
  split; [repeat constructor|].
  apply reduce_adjacent_periods_differ. repeat constructor.
Defined.

Lemma encoder_ticks_count_periods_witness :
  convert_to_clocks_and_toggles
    (reduce_clock_instructions [Instr (1#10) 3; WAIT; Instr (2#10) 2]) (DigitalOut [1]) 10
  = Ok [(0, 1); (0, 1); (-1, 0); (1, 1)]
  /\ [Instr (1#10) 3; WAIT; Instr (2#10) 2] <> []
  /\ 1 + clock_edges [(0, 1); (0, 1); (-1, 0); (1, 1)]
     = total_reps [Instr (1#10) 3; WAIT; Instr (2#10) 2].
Proof.
  assert (H : convert_to_clocks_and_toggles
    (reduce_clock_instructions [Instr (1#10) 3; WAIT; Instr (2#10) 2]) (DigitalOut [1]) 10
    = Ok [(0, 1); (0, 1); (-1, 0); (1, 1)]) by reflexivity.
  assert (Hne : [Instr (1#10) 3; WAIT; Instr (2#10) 2] <> []) by discriminate.
  split; [exact H|split; [exact Hne|]].
  exact (encoder_ticks_count_periods _ _ _ _ H Hne).
Defined.

Lemma expand_clock_sorted_witness :
  (0 < 10)%Q /\ Forall (fun t => 0 <= t.1) (tl [(1, 0); (2, 3); (0, 2)])
  /\ Sorted Qle (expand_clock [(1, 0); (2, 3); (0, 2)] 10 1).
Proof.
  assert (Hcl : (0 < 10)%Q) by reflexivity.
  assert (Hf : Forall (fun t : tick => 0 <= t.1) (tl [(1, 0); (2, 3); (0, 2)]))
    by (repeat constructor; simpl; lia).
  split; [exact Hcl|split; [exact Hf|]].
  exact (expand_clock_sorted _ _ 1 Hcl Hf).
Defined.

(* ------------------------------------------------------------------ *)
(** ** Properties of FPGADevice.outputs *)

Lemma read_outputs_succ (k : nat) (d : fpga_device) :
  read_outputs (S k) d =
  match read_outputs k d with
  | XOk d' => match outputs d' with XOk (d'', _) => XOk d'' | XErr e => XErr e end
  | XErr e => XErr e
  end.
Proof.
  revert d. induction k as [|k IH]; intros d.
  - simpl. destruct (outputs d) as [[d' oid]|e]; reflexivity.
  - change (read_outputs (S (S k)) d)
      with (match outputs d with XOk (d1, _) => read_outputs (S k) d1 | XErr e => XErr e end).
    change (read_outputs (S k) d)
      with (match outputs d with XOk (d1, _) => read_outputs k d1 | XErr e => XErr e end).
    destruct (outputs d) as [[d1 oid]|e]; [apply IH|reflexivity].
Qed.

Lemma read_outputs_shape (k : nat) (d d' : fpga_device) :
  read_outputs k d = XOk d' ->
  fd_name d' = fd_name d /\ max_outputs d' = max_outputs d
  /\ pseudoclocks d' = pseudoclocks d
       ++ map (fun i => ("fpga_pseudoclock" ++ pretty i)%string)
              (seq (length (pseudoclocks d)) k)
  /\ output_devices d' = output_devices d
       ++ map (fun i => mk_intermediate_device ("fpga_output_device" ++ pretty i) [] None)
              (seq (length (pseudoclocks d)) k).
Proof.
  revert d. induction k as [|k IH]; intros d H.
  - injection H as <-. rewrite !app_nil_r. auto.
  - simpl in H. unfold outputs in H.
    destruct (match max_outputs d with
              | Some m => Z.of_nat (length (pseudoclocks d)) =? m
              | None => false
              end); [discriminate|].
    apply IH in H as (H1 & H2 & H3 & H4). simpl in H1, H2, H3, H4.
    rewrite length_app in H3, H4. simpl in H3, H4. rewrite Nat.add_1_r in H3, H4.
    rewrite <- app_assoc in H3, H4. repeat split; auto.
Qed.

Lemma read_outputs_ok (k : nat) (d : fpga_device) :
  (forall j, (j < k)%nat ->
     match max_outputs d with
     | Some m => Z.of_nat (length (pseudoclocks d) + j) <> m
     | None => True
     end) ->
  exists d', read_outputs k d = XOk d'.
Proof.
  revert d. induction k as [|k IH]; intros d H; [by eexists|].
  simpl. unfold outputs.
  set (d1 := mk_fpga_device (fd_name d) (n_analog d) (n_digital d)
               (pseudoclocks d ++ [("fpga_pseudoclock" ++ pretty (length (pseudoclocks d)))%string])
               (clocklines d
                  ++ [("fpga_output" ++ pretty (length (pseudoclocks d)) ++ "_clock_line")%string])
               (output_devices d
                  ++ [mk_intermediate_device
                        ("fpga_output_device" ++ pretty (length (pseudoclocks d))) [] None])).
  assert (Hmax : max_outputs d1 = max_outputs d) by reflexivity.
  assert (Hlen : length (pseudoclocks d1) = S (length (pseudoclocks d)))
    by (simpl; rewrite length_app; simpl; lia).
  assert (IH1 : exists d', read_outputs k d1 = XOk d').
  { apply IH. intros j Hj. rewrite Hmax, Hlen. specialize (H (S j) ltac:(lia)).
    destruct (max_outputs d); [lia|exact I]. }
  destruct (max_outputs d) as [m|] eqn:Em.
  - assert (Hf : (Z.of_nat (length (pseudoclocks d)) =? m) = false).
    { apply Z.eqb_neq. specialize (H 0%nat ltac:(lia)). rewrite Nat.add_0_r in H. exact H. }
    rewrite Hf. exact IH1.
  - exact IH1.
Qed.

Lemma prefixed_pretty_NoDup (prefix : string) (k : nat) :
  NoDup (map (fun i : nat => (prefix ++ pretty i)%string) (seq 0 k)).
Proof.
  apply (NoDup_fmap_2_strong (fun i : nat => (prefix ++ pretty i)%string)); [|apply NoDup_seq].
  intros i j _ _ E. apply (inj (String.app prefix)) in E. by apply (inj pretty) in E.
Qed.

(** When both output counts are given and their sum [m] is not negative,
    the [outputs] property can be read exactly [m] times; the next read
    raises the [LabscriptError] that names the limit and the device. *)
Theorem outputs_limit_reached (name : string) (a d : option Z) (m : Z) :
  max_outputs (new_fpga_device name a d) = Some m -> 0 <= m ->
  (exists dev, read_outputs (Z.to_nat m) (new_fpga_device name a d) = XOk dev
               /\ length (output_devices dev) = Z.to_nat m)
  /\ read_outputs (S (Z.to_nat m)) (new_fpga_device name a d)
     = XErr (Exc (LabscriptError ("Cannot connect more than " ++ pretty (Z.to_nat m)
                 ++ " outputs to the device '" ++ name ++ "'"))).
Proof.
  intros Hm Hpos.
  destruct (read_outputs_ok (Z.to_nat m) (new_fpga_device name a d)) as [dev Hdev].
  { intros j Hj. rewrite Hm. simpl. lia. }
  destruct (read_outputs_shape _ _ _ Hdev) as (H1 & H2 & H3 & H4). simpl in H1, H3, H4.
  split.
  - exists dev. split; [exact Hdev|]. by rewrite H4, length_map, length_seq.
  - rewrite read_outputs_succ, Hdev. unfold outputs.
    rewrite H2, Hm, H3, length_map, length_seq, H1, Z2Nat.id by exact Hpos.
    by rewrite Z.eqb_refl.
Qed.

(** When a count is missing ([None] makes the sum raise a [TypeError],
    which is caught) or the sum is negative, every number of reads of
    [outputs] succeeds. *)
Theorem outputs_unlimited (name : string) (a d : option Z) (k : nat) :
  match max_outputs (new_fpga_device name a d) with Some m => m < 0 | None => True end ->
  exists dev, read_outputs k (new_fpga_device name a d) = XOk dev
              /\ length (output_devices dev) = k.
Proof.
  intros Hm.
  destruct (read_outputs_ok k (new_fpga_device name a d)) as [dev Hdev].
  { intros j Hj. destruct (max_outputs _); [simpl; lia|exact I]. }
  exists dev. split; [exact Hdev|].
  destruct (read_outputs_shape _ _ _ Hdev) as (_ & _ & _ & H4). simpl in H4.
  by rewrite H4, length_map, length_seq.
Qed.

(** The reads of [outputs] on a new device create the intermediate
    devices [fpga_output_device0], [fpga_output_device1], ... in order,
    each with no child and no output, and pseudoclocks with distinct
    names. *)
Theorem outputs_device_names (name : string) (a d : option Z) (k : nat) (dev : fpga_device) :
  read_outputs k (new_fpga_device name a d) = XOk dev ->
  map oid_name (output_devices dev)
    = map (fun i => ("fpga_output_device" ++ pretty i)%string) (seq 0 k)
  /\ NoDup (map oid_name (output_devices dev))
  /\ Forall (fun o => child_devices o = [] /\ oid_output o = None) (output_devices dev)
  /\ NoDup (pseudoclocks dev).
Proof.
  intros H. destruct (read_outputs_shape _ _ _ H) as (_ & _ & H3 & H4).
  simpl in H3, H4. rewrite H4, H3.
  assert (E : map oid_name
                (map (fun i => mk_intermediate_device ("fpga_output_device" ++ pretty i) [] None)
                     (seq 0 k))
              = map (fun i => ("fpga_output_device" ++ pretty i)%string) (seq 0 k))
    by (rewrite map_map; reflexivity).
  rewrite E. split; [reflexivity|split; [apply prefixed_pretty_NoDup|split]].
  - apply Forall_forall. intros o Ho. apply list_elem_of_In, in_map_iff in Ho as (i & <- & _). simpl. auto.
  - apply prefixed_pretty_NoDup.
Qed.

Lemma outputs_limit_reached_witness :
  max_outputs (new_fpga_device "fpga" (Some 1) (Some 2)) = Some 3 /\ 0 <= 3
  /\ (exists dev, read_outputs (Z.to_nat 3) (new_fpga_device "fpga" (Some 1) (Some 2)) = XOk dev
                  /\ length (output_devices dev) = Z.to_nat 3)
  /\ read_outputs (S (Z.to_nat 3)) (new_fpga_device "fpga" (Some 1) (Some 2))
     = XErr (Exc (LabscriptError ("Cannot connect more than " ++ pretty (Z.to_nat 3)
                 ++ " outputs to the device '" ++ "fpga" ++ "'"))).
Proof.
  assert (Hm : max_outputs (new_fpga_device "fpga" (Some 1) (Some 2)) = Some 3) by reflexivity.
  assert (Hp : 0 <= 3) by lia.
  split; [exact Hm|split; [exact Hp|]]. exact (outputs_limit_reached _ _ _ _ Hm Hp).
Defined.

Lemma outputs_unlimited_witness :
  match max_outputs (new_fpga_device "fpga" None (Some 2)) with
  | Some m => m < 0 | None => True end
  /\ exists dev, read_outputs 5 (new_fpga_device "fpga" None (Some 2)) = XOk dev
                 /\ length (output_devices dev) = 5%nat.
Proof.
  assert (H : match max_outputs (new_fpga_device "fpga" None (Some 2)) with
              | Some m => m < 0 | None => True end) by (simpl; exact I).
  split; [exact H|exact (outputs_unlimited "fpga" None (Some 2) 5 H)].
Defined.

Lemma outputs_device_names_witness :
  exists dev, read_outputs 2 (new_fpga_device "fpga" (Some 1) (Some 1)) = XOk dev
  /\ map oid_name (output_devices dev)
       = map (fun i => ("fpga_output_device" ++ pretty i)%string) (seq 0 2)
  /\ NoDup (map oid_name (output_devices dev))
  /\ Forall (fun o => child_devices o = [] /\ oid_output o = None) (output_devices dev)
  /\ NoDup (pseudoclocks dev).
Proof.
  eexists.
  assert (H : read_outputs 2 (new_fpga_device "fpga" (Some 1) (Some 1)) = XOk _) by reflexivity.
  split; [exact H|exact (outputs_device_names _ _ _ _ _ H)].
Defined.

(* ------------------------------------------------------------------ *)
(** ** Properties of FPGADevice.generate_code *)

Lemma create_dataset_ok {A} (g : list (string * A)) (name : string) (v : A) g' :
  create_dataset g name v = XOk g' -> g' = g ++ [(name, v)] /\ ~ In name (map fst g).
Proof.
  unfold create_dataset. destruct (existsb (fun p => String.eqb p.1 name) g) eqn:E;
    [discriminate|]. intros H. injection H as <-. split; [reflexivity|].
  intros Hin. apply in_map_iff in Hin as (p & Hp & Hin).
  assert (existsb (fun p => String.eqb p.1 name) g = true) as E'
    by (apply existsb_exists; exists p; split; [exact Hin|by apply String.eqb_eq]).
  congruence.
Qed.

Lemma NoDup_snoc_fresh (l : list string) (x : string) :
  NoDup l -> ~ In x l -> NoDup (l ++ [x]).
Proof.
  intros Hnd Hx. apply NoDup_app. split; [exact Hnd|split; [|apply NoDup_singleton]].
  intros y Hy Hy'. apply list_elem_of_singleton in Hy' as ->. by apply Hx, list_elem_of_In.
Qed.

Lemma generate_channels_ok chans g g' :
  generate_channels chans g = XOk g' ->
  Forall (fun c => c.2 <> None) chans
  /\ map fst (clocks g') = map fst (clocks g) ++ chan_connections chans
  /\ analog_data g' = analog_data g ++ chan_analog_data chans
  /\ analog_limits g' = analog_limits g ++ chan_analog_limits chans
  /\ (NoDup (map fst (clocks g)) -> NoDup (map fst (clocks g'))).
Proof.
  revert g. induction chans as [|[clock o] rest IH]; intros g H.
  - injection H as <-. rewrite !app_nil_r. repeat split; auto.
  - simpl in H. destruct o as [a|]; [|discriminate].
    destruct (convert_to_clocks_and_toggles (reduce_clock_instructions clock)
                (att_output a) fpga_clock_limit) as [ct|e]; [|discriminate].
    destruct (create_dataset (clocks g) (att_connection a) ct) as [cg|e] eqn:Ec;
      [|discriminate].
    apply create_dataset_ok in Ec as [-> Hfresh].
    unfold chan_connections, chan_analog_data, chan_analog_limits; cbn [flat_map snd].
    fold (chan_connections rest) (chan_analog_data rest) (chan_analog_limits rest).
    destruct (att_output a) as [raw|raw|cn] eqn:Eo.
    + destruct (create_dataset (analog_data g) (att_connection a) raw) as [ag|e] eqn:Ea;
        [|discriminate].
      apply create_dataset_ok in Ea as [-> _].
      destruct (att_limits a) as [lim|] eqn:El.
      * destruct (create_dataset (analog_limits g) (att_connection a) lim) as [lg|e] eqn:Elg;
          [|discriminate].
        apply create_dataset_ok in Elg as [-> _].
        apply IH in H as (H1 & H2 & H3 & H4 & H5); simpl in H2, H3, H4, H5.
        rewrite map_app, <- app_assoc in H2. rewrite <- app_assoc in H3, H4.
        split; [constructor; [simpl; discriminate|exact H1]|].
        split; [exact H2|]. split; [exact H3|]. split; [exact H4|].
        intros Hnd. apply H5. rewrite map_app. by apply NoDup_snoc_fresh.
      * apply IH in H as (H1 & H2 & H3 & H4 & H5); simpl in H2, H3, H4, H5.
        rewrite map_app, <- app_assoc in H2. rewrite <- app_assoc in H3.
        split; [constructor; [simpl; discriminate|exact H1]|].
        split; [exact H2|]. split; [exact H3|]. split; [exact H4|].
        intros Hnd. apply H5. rewrite map_app. by apply NoDup_snoc_fresh.
    + apply IH in H as (H1 & H2 & H3 & H4 & H5); simpl in H2, H3, H4, H5.
      rewrite map_app, <- app_assoc in H2. rewrite !app_nil_l.
      split; [constructor; [simpl; discriminate|exact H1]|].
      split; [exact H2|]. split; [exact H3|]. split; [exact H4|].
      intros Hnd. apply H5. rewrite map_app. by apply NoDup_snoc_fresh.
    + apply IH in H as (H1 & H2 & H3 & H4 & H5); simpl in H2, H3, H4, H5.
      rewrite map_app, <- app_assoc in H2. rewrite !app_nil_l.
      split; [constructor; [simpl; discriminate|exact H1]|].
      split; [exact H2|]. split; [exact H3|]. split; [exact H4|].
      intros Hnd. apply H5. rewrite map_app. by apply NoDup_snoc_fresh.
Qed.

Lemma generate_channels_app pre post g g' :
  generate_channels pre g = XOk g' ->
  generate_channels (pre ++ post) g = generate_channels post g'.
Proof.
  revert g. induction pre as [|[clock o] rest IH]; intros g H.
  - by injection H as <-.
  - simpl in H |- *.
    repeat match goal with
           | H : context [match ?x with _ => _ end] |- _ => destruct x; try discriminate
           end; by apply IH.
Qed.

Lemma check_counts_falsy (self : fpga_device)
    (chans : list (list instruction * option attached_output)) :
  py_falsy (n_analog self) = true -> py_falsy (n_digital self) = true ->
  check_counts self chans =
  XOk (mk_fpga_device (fd_name self) (Some (count_analog chans)) (Some (count_digital chans))
         (pseudoclocks self) (clocklines self) (output_devices self)).
Proof.
  intros Ha Hd. unfold check_counts. rewrite Ha, Hd.
  by rewrite !bool_decide_eq_true_2 by reflexivity.
Qed.

Lemma generate_code_checked (self self' : fpga_device)
    (chans : list (list instruction * option attached_output)) (stop_time : Q) :
  check_counts self chans = XOk self' ->
  generate_code self chans stop_time =
  match generate_channels chans empty_group with
  | XOk g =>
      XOk (self', mk_generated g (match chans with
                                  | [] => None
                                  | _ => Some (stop_time, fpga_clock_limit, fpga_clock_resolution)
                                  end))
  | XErr e => XErr e
  end.
Proof. intros H. unfold generate_code. by rewrite H. Qed.

(** A declared, nonzero count of analog or digital outputs that differs
    from the number of outputs whose class is exactly [AnalogOut] or
    [DigitalOut] makes [generate_code] raise the LabscriptError "does not
    have enough outputs attached" of its count check, with the expected
    and found counts; the loop that writes the datasets is not reached. *)
Theorem generate_code_count_mismatch (self : fpga_device)
    (chans : list (list instruction * option attached_output)) (stop_time : Q) :
  (exists a, n_analog self = Some a /\ a <> 0 /\ a <> count_analog chans)
  \/ (exists d, n_digital self = Some d /\ d <> 0 /\ d <> count_digital chans) ->
  generate_code self chans stop_time
  = XErr (Exc (LabscriptError
      (count_mismatch_msg (fd_name self)
         (if py_falsy (n_digital self) then Some (count_digital chans) else n_digital self)
         (if py_falsy (n_analog self) then Some (count_analog chans) else n_analog self)
         (count_digital chans) (count_analog chans)))).
Proof.
  intros [(a & Ha & Hz & Hne)|(d & Hd & Hz & Hne)]; unfold generate_code, check_counts.
  - rewrite Ha. assert (Hf : py_falsy (Some a) = false) by (simpl; by apply Z.eqb_neq).
    rewrite Hf, (bool_decide_eq_false_2 (Some a = _)) by congruence.
    reflexivity.
  - rewrite Hd. assert (Hf : py_falsy (Some d) = false) by (simpl; by apply Z.eqb_neq).
    rewrite Hf, (bool_decide_eq_false_2 (Some d = _)) by congruence.
    rewrite orb_true_r. reflexivity.
Qed.

(** When neither count is declared ([None] or [0]), the count check never
    fails: [generate_code] fails exactly when writing the pseudoclocks
    fails, and on success the device records the counts it found (the
    outputs whose class is exactly [AnalogOut], resp. [DigitalOut]). *)
Theorem generate_code_undeclared_counts (self : fpga_device)
    (chans : list (list instruction * option attached_output)) (stop_time : Q) :
  py_falsy (n_analog self) = true -> py_falsy (n_digital self) = true ->
  (forall e, generate_code self chans stop_time = XErr e
             <-> generate_channels chans empty_group = XErr e)
  /\ (forall self' gen, generate_code self chans stop_time = XOk (self', gen) ->
        n_analog self' = Some (count_analog chans)
        /\ n_digital self' = Some (count_digital chans)
        /\ generate_channels chans empty_group = XOk (gen_group gen)).
Proof.
  intros Ha Hd. rewrite (generate_code_checked _ _ _ _ (check_counts_falsy _ _ Ha Hd)).
  destruct (generate_channels chans empty_group) as [g|e'].
  - split; [intros e; split; discriminate|].
    intros self' gen H. injection H as <- <-. simpl. auto.
  - split; [intros e; split; congruence|discriminate].
Qed.

(** A successful [generate_code] has an output on every pseudoclock; it
    writes one clocks dataset per pseudoclock, named by the output's
    connection, in pseudoclock order and with no two names equal (h5py
    refuses a second dataset of the same name); the analog data and limits
    of the [AnalogOut] outputs; and the attributes exactly when there is a
    pseudoclock. *)
Theorem generate_code_layout (self : fpga_device)
    (chans : list (list instruction * option attached_output)) (stop_time : Q)
    (self' : fpga_device) (gen : generated) :
  generate_code self chans stop_time = XOk (self', gen) ->
  Forall (fun c => c.2 <> None) chans
  /\ map fst (clocks (gen_group gen)) = chan_connections chans
  /\ NoDup (chan_connections chans)
  /\ analog_data (gen_group gen) = chan_analog_data chans
  /\ analog_limits (gen_group gen) = chan_analog_limits chans
  /\ (gen_attrs gen = None <-> chans = []).
Proof.
  unfold generate_code. intros H.
  destruct (check_counts self chans) as [s1|e]; [|discriminate].
  destruct (generate_channels chans (mk_device_group [] [] [])) as [g|e] eqn:Eg;
    [|discriminate].
  injection H as <- <-. simpl.
  apply generate_channels_ok in Eg as (H1 & H2 & H3 & H4 & H5). simpl in H2, H3, H4, H5.
  rewrite <- H2. split; [exact H1|split; [reflexivity|split; [apply H5; constructor|]]].
  split; [exact H3|split; [exact H4|]].
  destruct chans; split; congruence.
Qed.

(** When the count check passes, an intermediate device with no output
    makes [generate_code] raise [AttributeError] (at [output.connection])
    once the pseudoclocks before it were written: the [LabscriptError] of
    the [output is None] test is never reached. *)
Theorem generate_code_missing_output (self self' : fpga_device)
    (pre post : list (list instruction * option attached_output))
    (clock : list instruction) (stop_time : Q) (g : device_group) :
  check_counts self (pre ++ (clock, None) :: post) = XOk self' ->
  generate_channels pre empty_group = XOk g ->
  generate_code self (pre ++ (clock, None) :: post) stop_time = XErr AttributeError.
Proof.
  intros Hc Hpre. rewrite (generate_code_checked _ _ _ _ Hc).
  by rewrite (generate_channels_app _ _ _ _ Hpre).
Qed.

(** An output of a subclass of [DigitalOut] (here [Shutter]) is a
    [DigitalOut] for [isinstance] but is not counted by
    [outputs.count(DigitalOut)]. *)
Definition example_shutter : attached_output :=
  mk_attached_output (DigitalOut [0; 1]) (ClassOther "Shutter") "digital 2" None.

Lemma generate_code_count_mismatch_witness :
  ((exists a, n_analog (new_fpga_device "fpga" (Some 2) None) = Some a /\ a <> 0
     /\ a <> count_analog example_chans)
   \/ (exists d, n_digital (new_fpga_device "fpga" (Some 2) None) = Some d /\ d <> 0
     /\ d <> count_digital example_chans))
  /\ generate_code (new_fpga_device "fpga" (Some 2) None) example_chans 1
     = XErr (Exc (LabscriptError
         (count_mismatch_msg "fpga" (Some (count_digital example_chans)) (Some 2)
            (count_digital example_chans) (count_analog example_chans)))).
Proof.
  assert (H : (exists a, n_analog (new_fpga_device "fpga" (Some 2) None) = Some a /\ a <> 0
     /\ a <> count_analog example_chans)
   \/ (exists d, n_digital (new_fpga_device "fpga" (Some 2) None) = Some d /\ d <> 0
     /\ d <> count_digital example_chans))
    by (left; exists 2; vm_compute; split; [reflexivity|split; discriminate]).
  split; [exact H|exact (generate_code_count_mismatch _ _ 1 H)].
Defined.

Lemma generate_code_undeclared_counts_witness :
  py_falsy (n_analog (new_fpga_device "fpga" None (Some 0))) = true
  /\ py_falsy (n_digital (new_fpga_device "fpga" None (Some 0))) = true
  /\ (forall e, generate_code (new_fpga_device "fpga" None (Some 0))
                  (example_chans ++ [([Instr 1 1], Some example_shutter)]) 1 = XErr e
                <-> generate_channels (example_chans ++ [([Instr 1 1], Some example_shutter)])
                      empty_group = XErr e)
  /\ (forall self' gen,
        generate_code (new_fpga_device "fpga" None (Some 0))
          (example_chans ++ [([Instr 1 1], Some example_shutter)]) 1 = XOk (self', gen) ->
        n_analog self' = Some (count_analog (example_chans ++ [([Instr 1 1], Some example_shutter)]))
        /\ n_digital self'
           = Some (count_digital (example_chans ++ [([Instr 1 1], Some example_shutter)]))
        /\ generate_channels (example_chans ++ [([Instr 1 1], Some example_shutter)])
             empty_group = XOk (gen_group gen)).
Proof.
  assert (Ha : py_falsy (n_analog (new_fpga_device "fpga" None (Some 0))) = true)
    by reflexivity.
  assert (Hd : py_falsy (n_digital (new_fpga_device "fpga" None (Some 0))) = true)
    by reflexivity.
  split; [exact Ha|split; [exact Hd|]].
  exact (generate_code_undeclared_counts _ _ 1 Ha Hd).
Defined.

Lemma generate_code_layout_witness :
  exists self' gen,
    generate_code (new_fpga_device "fpga" (Some 1) (Some 1)) example_chans 1
    = XOk (self', gen)
    /\ Forall (fun c => c.2 <> None) example_chans
    /\ map fst (clocks (gen_group gen)) = chan_connections example_chans
    /\ NoDup (chan_connections example_chans)
    /\ analog_data (gen_group gen) = chan_analog_data example_chans
    /\ analog_limits (gen_group gen) = chan_analog_limits example_chans
    /\ (gen_attrs gen = None <-> example_chans = []).
Proof.
  eexists _, _.
  assert (H : generate_code (new_fpga_device "fpga" (Some 1) (Some 1)) example_chans 1
              = XOk (_, _)) by (vm_compute; reflexivity).
  split; [exact H|exact (generate_code_layout _ _ _ _ _ H)].
Defined.

Lemma generate_code_missing_output_witness :
  exists self',
    check_counts (new_fpga_device "fpga" (Some 1) None)
      ([([Instr (1#10) 2], Some example_analog)] ++ ([Instr 1 1], None) :: []) = XOk self'
    /\ generate_channels [([Instr (1#10) 2], Some example_analog)] empty_group
       = XOk (mk_device_group [("analog 0", [(9999999, 0); (9999999, 0)])]
                              [("analog 0", [0%Q; (1#2)%Q])] [("analog 0", (0%Q, 5%Q))])
    /\ generate_code (new_fpga_device "fpga" (Some 1) None)
         ([([Instr (1#10) 2], Some example_analog)] ++ ([Instr 1 1], None) :: []) 1
       = XErr AttributeError.
Proof.
  eexists.
  assert (Hc : check_counts (new_fpga_device "fpga" (Some 1) None)
      ([([Instr (1#10) 2], Some example_analog)] ++ ([Instr 1 1], None) :: []) = XOk _)
    by (vm_compute; reflexivity).
  assert (Hp : generate_channels [([Instr (1#10) 2], Some example_analog)] empty_group
     = XOk (mk_device_group [("analog 0", [(9999999, 0); (9999999, 0)])]
                            [("analog 0", [0%Q; (1#2)%Q])] [("analog 0", (0%Q, 5%Q))]))
    by (vm_compute; reflexivity).
  split; [exact Hc|split; [exact Hp|]].
  exact (generate_code_missing_output _ _ _ _ _ 1 _ Hc Hp).
Defined.

(* ------------------------------------------------------------------ *)
(** ** Properties of FPGADeviceWorker.transition_to_buffered *)

Lemma send_clocks_cons (transport : hw_call -> bool) ad fp i o clock rest fs ws :
  send_clocks transport ad fp i ((o, clock) :: rest) fs ws =
  let dec := fp || np_any_ne tick_eqb clock (sc_clocks (smart ws) !! o) in
  let ws1 := if dec
             then mk_wstate (mk_smart_cache (<[o := clock]> (sc_clocks (smart ws)))
                                            (sc_data (smart ws)))
                            (sent ws ++ [SendPseudoclock 0 i clock])
             else ws in
  if dec && negb (transport (SendPseudoclock 0 i clock))
  then (ws1, Err TransmissionFailure)
  else match group_get o ad with
       | None =>
           match clock with
           | [] => (ws1, Err IndexError)
           | c0 :: _ =>
               send_clocks transport ad fp (i + 1) rest
                 (<[o := inject_Z (c0.2 + sum_toggles clock mod 2)]> fs) ws1
           end
       | Some _ => send_clocks transport ad fp (i + 1) rest fs ws1
       end.
Proof.
  simpl. unfold mbind, M_bind, get_cache, cache_clock, send, mret, M_ret, raise. simpl.
  destruct fp; [|destruct (np_any_ne tick_eqb clock (sc_clocks (smart ws) !! o))]; simpl;
    destruct (transport (SendPseudoclock 0 i clock)), (group_get o ad), clock; reflexivity.
Qed.

Lemma send_analog_cons (transport : hw_call -> bool) limits fp i o data rest fs ws :
  send_analog transport limits fp i ((o, data) :: rest) fs ws =
  if fp || np_any_ne Qeq_bool data (sc_data (smart ws) !! o)
  then match List.last (map Some data) None with
       | None => (ws, Err IndexError)
       | Some v =>
           let '(range_min, range_max) :=
             match group_get o limits with Some lim => lim | None => (0%Q, 5%Q) end in
           let c := SendAnalogData 0 i range_min range_max data in
           let ws1 := mk_wstate (mk_smart_cache (sc_clocks (smart ws))
                                                (<[o := data]> (sc_data (smart ws))))
                                (sent ws ++ [c]) in
           if transport c
           then send_analog transport limits fp (i + 1) rest (<[o := v]> fs) ws1
           else (ws1, Err TransmissionFailure)
       end
  else send_analog transport limits fp (i + 1) rest fs ws.
Proof.
  simpl. unfold mbind, M_bind, get_cache, cache_data, send, mret, M_ret, raise. simpl.
  destruct (fp || np_any_ne Qeq_bool data (sc_data (smart ws) !! o)); [|reflexivity].
  destruct (List.last (map Some data) None); [|reflexivity].
  destruct (group_get o limits) as [[mn mx]|]; simpl;
    destruct (transport _); reflexivity.
Qed.

Lemma last_map_Some_nonempty {A} (l : list A) :
  l <> [] -> exists v, List.last (map Some l) None = Some v.
Proof.
  induction l as [|x l IH]; intros Hne; [congruence|].
  destruct l as [|y l]; [by exists x|]. apply IH. discriminate.
Qed.

Lemma np_any_ne_self {A} (eqb : A -> A -> bool) (l : list A) :
  (forall x, eqb x x = true) -> np_any_ne eqb l (Some l) = false.
Proof.
  intros Hr. unfold np_any_ne. rewrite Nat.eqb_refl.
  induction l as [|x l IH]; [reflexivity|]. simpl. by rewrite Hr, IH.
Qed.

Lemma tick_eqb_refl (t : tick) : tick_eqb t t = true.
Proof. unfold tick_eqb. by rewrite !Z.eqb_refl. Qed.

Lemma send_clocks_fresh ad i clocks fs ws :
  (forall o c, In (o, c) clocks -> group_get o ad = None -> c <> []) ->
  exists ws' fs',
    send_clocks (fun _ => true) ad true i clocks fs ws = (ws', Ok fs')
    /\ sent ws' = sent ws ++ pseudoclock_calls i clocks.
Proof.
  revert i fs ws. induction clocks as [|[o c] rest IH]; intros i fs ws Hne.
  - exists ws, fs. by rewrite app_nil_r.
  - rewrite send_clocks_cons. cbv zeta. simpl orb. simpl negb. cbn iota.
    assert (Hr : forall o' c', In (o', c') rest -> group_get o' ad = None -> c' <> [])
      by (intros; apply Hne with o'; [by right|assumption]).
    destruct (group_get o ad) eqn:Eg.
    + destruct (IH (i + 1) fs (mk_wstate (mk_smart_cache (<[o := c]> (sc_clocks (smart ws)))
                                            (sc_data (smart ws)))
                                 (sent ws ++ [SendPseudoclock 0 i c])) Hr)
        as (ws' & fs' & H1 & H2).
      exists ws', fs'. split; [exact H1|]. rewrite H2. simpl. by rewrite <- app_assoc.
    + destruct c as [|c0 c']; [exfalso; exact (Hne o [] (or_introl eq_refl) Eg eq_refl)|].
      match goal with |- context [send_clocks _ _ _ _ _ ?fs1 ?ws1] =>
        destruct (IH (i + 1) fs1 ws1 Hr) as (ws' & fs' & H1 & H2) end.
      exists ws', fs'. split; [exact H1|]. rewrite H2. simpl. by rewrite <- app_assoc.
Qed.

Lemma send_analog_fresh limits i ad fs ws :
  Forall (fun p => p.2 <> []) ad ->
  exists ws' fs',
    send_analog (fun _ => true) limits true i ad fs ws = (ws', Ok fs')
    /\ sent ws' = sent ws ++ analog_calls limits i ad.
Proof.
  revert i fs ws. induction ad as [|[o data] rest IH]; intros i fs ws Hne.
  - exists ws, fs. by rewrite app_nil_r.
  - apply Forall_cons in Hne as [Hd Hr]. simpl in Hd.
    rewrite send_analog_cons. simpl orb. cbn iota.
    destruct (last_map_Some_nonempty data Hd) as [v Hv]. rewrite Hv.
    simpl analog_calls.
    destruct (group_get o limits) as [[mn mx]|]; cbn zeta iota;
      match goal with |- context [send_analog _ _ _ _ _ ?fs1 ?ws1] =>
        destruct (IH (i + 1) fs1 ws1 Hr) as (ws' & fs' & H1 & H2) end;
      exists ws', fs'; (split; [exact H1|]); rewrite H2; simpl; by rewrite <- app_assoc.
Qed.

Lemma send_clocks_run (transport : hw_call -> bool) ad fp i clocks fs ws ws' fs' :
  NoDup (map fst clocks) ->
  send_clocks transport ad fp i clocks fs ws = (ws', Ok fs') ->
  (forall o c, In (o, c) clocks ->
     np_any_ne tick_eqb c (sc_clocks (smart ws') !! o) = false
     /\ (group_get o ad = None -> c <> []))
  /\ (forall k, ~ In k (map fst clocks) -> sc_clocks (smart ws') !! k = sc_clocks (smart ws) !! k)
  /\ sc_data (smart ws') = sc_data (smart ws).
Proof.
  revert i fs ws. induction clocks as [|[o c] rest IH]; intros i fs ws Hnd H.
  - injection H as <- <-. split; [intros ? ? []|]. auto.
  - simpl in Hnd. apply NoDup_cons in Hnd as [Ho Hnd].
    assert (Ho' : ~ In o (map fst rest)) by (by rewrite <- list_elem_of_In).
    rewrite send_clocks_cons in H. cbv zeta in H.
    set (dec := fp || np_any_ne tick_eqb c (sc_clocks (smart ws) !! o)) in H.
    set (ws1 := if dec
                then mk_wstate (mk_smart_cache (<[o := c]> (sc_clocks (smart ws)))
                                               (sc_data (smart ws)))
                               (sent ws ++ [SendPseudoclock 0 i c])
                else ws) in H.
    assert (Hws1o : np_any_ne tick_eqb c (sc_clocks (smart ws1) !! o) = false).
    { subst ws1. destruct dec eqn:Ed; simpl.
      - rewrite lookup_insert_eq. apply np_any_ne_self, tick_eqb_refl.
      - subst dec. by apply orb_false_iff in Ed as [_ Ed]. }
    assert (Hws1k : forall k, k <> o -> sc_clocks (smart ws1) !! k = sc_clocks (smart ws) !! k).
    { intros k Hk. subst ws1. destruct dec; simpl; [|reflexivity].
      by rewrite lookup_insert_ne by congruence. }
    assert (Hws1d : sc_data (smart ws1) = sc_data (smart ws)) by (subst ws1; by destruct dec).
    destruct (dec && negb (transport (SendPseudoclock 0 i c))); [discriminate|].
    assert (Hrest : (forall o' c', In (o', c') rest ->
                       np_any_ne tick_eqb c' (sc_clocks (smart ws') !! o') = false
                       /\ (group_get o' ad = None -> c' <> []))
                    /\ (forall k, ~ In k (map fst rest) ->
                          sc_clocks (smart ws') !! k = sc_clocks (smart ws1) !! k)
                    /\ sc_data (smart ws') = sc_data (smart ws1)
                    /\ (group_get o ad = None -> c <> [])).
    { destruct (group_get o ad) eqn:Eg.
      - destruct (IH _ _ _ Hnd H) as (A1 & A2 & A3).
        split; [exact A1|split; [exact A2|split; [exact A3|]]]. discriminate.
      - destruct c as [|c0 c']; [discriminate|].
        destruct (IH _ _ _ Hnd H) as (A1 & A2 & A3).
        split; [exact A1|split; [exact A2|split; [exact A3|]]]. intros _; discriminate. }
    destruct Hrest as (A1 & A2 & A3 & A4).
    split; [|split].
    + intros o' c' [E|Hin].
      * injection E as <- <-. rewrite (A2 o Ho'). auto.
      * by apply A1.
    + intros k Hk. simpl in Hk. rewrite A2 by tauto. apply Hws1k. intros ->. tauto.
    + by rewrite A3.
Qed.

Lemma send_analog_run (transport : hw_call -> bool) limits fp i ad fs ws ws' fs' :
  NoDup (map fst ad) ->
  send_analog transport limits fp i ad fs ws = (ws', Ok fs') ->
  (forall o d, In (o, d) ad -> np_any_ne Qeq_bool d (sc_data (smart ws') !! o) = false)
  /\ sc_clocks (smart ws') = sc_clocks (smart ws).
Proof.
  revert i fs ws. induction ad as [|[o d] rest IH]; intros i fs ws Hnd H.
  - injection H as <- <-. split; [intros ? ? []|reflexivity].
  - simpl in Hnd. apply NoDup_cons in Hnd as [Ho Hnd].
    assert (Ho' : ~ In o (map fst rest)) by (by rewrite <- list_elem_of_In).
    rewrite send_analog_cons in H.
    assert (Hkeep : forall ws1 fs1 i1,
              send_analog transport limits fp i1 rest fs1 ws1 = (ws', Ok fs') ->
              np_any_ne Qeq_bool d (sc_data (smart ws1) !! o) = false ->
              sc_clocks (smart ws1) = sc_clocks (smart ws) ->
              (forall o' d', In (o', d') ((o, d) :: rest) ->
                 np_any_ne Qeq_bool d' (sc_data (smart ws') !! o') = false)
              /\ sc_clocks (smart ws') = sc_clocks (smart ws)).
    { intros ws1 fs1 i1 Hr Hd Hc.
      (* the entry [o] is not written again by the rest of the loop *)
      assert (Hun : sc_data (smart ws') !! o = sc_data (smart ws1) !! o).
      { clear -Hr Ho'. revert i1 fs1 ws1 Hr.
        induction rest as [|[o2 d2] rest2 IH2]; intros i1 fs1 ws1 Hr.
        - by injection Hr as <- <-.
        - simpl in Ho'. rewrite send_analog_cons in Hr.
          destruct (fp || np_any_ne Qeq_bool d2 (sc_data (smart ws1) !! o2)).
          + destruct (List.last (map Some d2) None); [|congruence].
            destruct (match group_get o2 limits with Some lim => lim | None => (0%Q, 5%Q) end)
              as [mn mx]. cbn beta iota zeta in Hr.
            destruct (transport (SendAnalogData 0 i1 mn mx d2)); [|congruence].
            rewrite (IH2 ltac:(tauto) _ _ _ Hr). simpl.
            rewrite lookup_insert_ne; [reflexivity|]. intros ->. tauto.
          + exact (IH2 ltac:(tauto) _ _ _ Hr). }
      destruct (IH _ _ _ Hnd Hr) as [B1 B2]. split.
      - intros o' d' [E|Hin]; [injection E as <- <-; by rewrite Hun|by apply B1].
      - by rewrite B2. }
    destruct (fp || np_any_ne Qeq_bool d (sc_data (smart ws) !! o)) eqn:Ed.
    + destruct (List.last (map Some d) None); [|congruence].
      destruct (match group_get o limits with Some lim => lim | None => (0%Q, 5%Q) end)
        as [mn mx]. cbn beta iota zeta in H.
      destruct (transport (SendAnalogData 0 i mn mx d)); [|congruence].
      apply (Hkeep _ _ _ H); simpl; [|reflexivity].
      rewrite lookup_insert_eq. apply np_any_ne_self. intros x. apply Qeq_bool_refl.
    + apply (Hkeep _ _ _ H); [|reflexivity]. by apply orb_false_iff in Ed as [_ Ed].
Qed.

Lemma send_clocks_quiet (transport : hw_call -> bool) ad i clocks fs ws :
  (forall o c, In (o, c) clocks ->
     np_any_ne tick_eqb c (sc_clocks (smart ws) !! o) = false
     /\ (group_get o ad = None -> c <> [])) ->
  exists fs', send_clocks transport ad false i clocks fs ws = (ws, Ok fs').
Proof.
  revert i fs. induction clocks as [|[o c] rest IH]; intros i fs H; [by eexists|].
  rewrite send_clocks_cons. cbv zeta.
  destruct (H o c (or_introl eq_refl)) as [Hd Hne]. rewrite Hd. simpl.
  assert (Hr : forall o' c', In (o', c') rest ->
                 np_any_ne tick_eqb c' (sc_clocks (smart ws) !! o') = false
                 /\ (group_get o' ad = None -> c' <> []))
    by (intros; apply H; by right).
  destruct (group_get o ad) eqn:Eg; [apply IH, Hr|].
  destruct c as [|c0 c']; [exfalso; exact (Hne eq_refl eq_refl)|]. apply IH, Hr.
Qed.

Lemma send_analog_quiet (transport : hw_call -> bool) limits i ad fs ws :
  (forall o d, In (o, d) ad -> np_any_ne Qeq_bool d (sc_data (smart ws) !! o) = false) ->
  exists fs', send_analog transport limits false i ad fs ws = (ws, Ok fs').
Proof.
  revert i fs. induction ad as [|[o d] rest IH]; intros i fs H; [by eexists|].
  rewrite send_analog_cons. rewrite (H o d (or_introl eq_refl)). simpl.
  apply IH. intros; apply H; by right.
Qed.

(** With [fresh_program] set and a board that accepts every call,
    [transition_to_buffered] succeeds, provided each digital clock and each
    analog data array is non-empty, and sends every clock (channel numbers
    0, 1, ... in file order) and then every analog data array, with its
    limits or the default range [(0, 5)]. *)
Theorem transition_fresh_sends_everything (g : device_group) (ws : wstate) :
  (forall o c, In (o, c) (clocks g) -> group_get o (analog_data g) = None -> c <> []) ->
  Forall (fun p => p.2 <> []) (analog_data g) ->
  exists ws' final_state,
    transition_to_buffered (fun _ => true) g true ws = (ws', Ok final_state)
    /\ sent ws' = sent ws ++ pseudoclock_calls 0 (clocks g)
                  ++ analog_calls (analog_limits g) 0 (analog_data g).
Proof.
  intros Hc Ha. unfold transition_to_buffered, mbind, M_bind.
  destruct (send_clocks_fresh (analog_data g) 0 (clocks g) ∅ ws Hc)
    as (wm & fm & H1 & H2). rewrite H1.
  destruct (send_analog_fresh (analog_limits g) 0 (analog_data g) fm wm Ha)
    as (ws' & fs & H3 & H4).
  exists ws', fs. split; [exact H3|]. by rewrite H4, H2, app_assoc.
Qed.

(** After a successful [transition_to_buffered] on a group whose channel
    names are distinct, running it again on the same group without
    [fresh_program] makes no hardware call and leaves the smart cache as
    it is, whatever the board does. *)
Theorem transition_rerun_sends_nothing (transport transport' : hw_call -> bool)
    (g : device_group) (fresh_program : bool) (ws ws' : wstate) (final_state : gmap string Q) :
  NoDup (map fst (clocks g)) -> NoDup (map fst (analog_data g)) ->
  transition_to_buffered transport g fresh_program ws = (ws', Ok final_state) ->
  exists final_state',
    transition_to_buffered transport' g false ws' = (ws', Ok final_state').
Proof.
  intros Hnc Hna H. unfold transition_to_buffered, mbind, M_bind in H |- *.
  destruct (send_clocks transport (analog_data g) fresh_program 0 (clocks g) ∅ ws)
    as [wm [fm|e]] eqn:E1; [|discriminate].
  destruct (send_clocks_run _ _ _ _ _ _ _ _ _ Hnc E1) as (A1 & _ & _).
  destruct (send_analog_run _ _ _ _ _ _ _ _ _ Hna H) as (B1 & B2).
  destruct (send_clocks_quiet transport' (analog_data g) 0 (clocks g) ∅ ws') as [fs1 E2].
  { intros o c Hin. rewrite B2. by apply A1. }
  rewrite E2. apply send_analog_quiet. exact B1.
Qed.

Lemma transition_fresh_sends_everything_witness :
  (forall o c, In (o, c) (clocks example_group) ->
     group_get o (analog_data example_group) = None -> c <> [])
  /\ Forall (fun p => p.2 <> []) (analog_data example_group)
  /\ exists ws' final_state,
       transition_to_buffered (fun _ => true) example_group true empty_worker
       = (ws', Ok final_state)
       /\ sent ws' = sent empty_worker ++ pseudoclock_calls 0 (clocks example_group)
                     ++ analog_calls (analog_limits example_group) 0 (analog_data example_group).
Proof.
  assert (Hc : forall o c, In (o, c) (clocks example_group) ->
             group_get o (analog_data example_group) = None -> c <> []).
  { intros o c Hin. simpl in Hin.
    destruct Hin as [E|[E|[]]]; injection E as <- <-; discriminate. }
  assert (Ha : Forall (fun p => p.2 <> []) (analog_data example_group))
    by (repeat constructor; simpl; discriminate).
  split; [exact Hc|split; [exact Ha|]].
  exact (transition_fresh_sends_everything example_group empty_worker Hc Ha).
Defined.

Lemma transition_rerun_sends_nothing_witness :
  exists ws' final_state,
    NoDup (map fst (clocks example_group)) /\ NoDup (map fst (analog_data example_group))
    /\ transition_to_buffered (fun _ => true) example_group true empty_worker
       = (ws', Ok final_state)
    /\ exists final_state',
         transition_to_buffered (fun _ => false) example_group false ws' = (ws', Ok final_state').
Proof.
  eexists _, _.
  assert (Hnc : NoDup (map fst (clocks example_group))) by (vm_compute; repeat constructor; set_solver).
  assert (Hna : NoDup (map fst (analog_data example_group))) by (vm_compute; repeat constructor; set_solver).
  assert (H : transition_to_buffered (fun _ => true) example_group true empty_worker
              = (_, Ok _)) by (vm_compute; reflexivity).
  split; [exact Hnc|split; [exact Hna|split; [exact H|]]].
  exact (transition_rerun_sends_nothing _ (fun _ => false) _ _ _ _ _ Hnc Hna H).
Defined.

(* ------------------------------------------------------------------ *)
(** ** Properties of FPGARunViewerParser.get_traces *)

Lemma get_traces_loop_digital cg adg clock_limit stop_time prev name ts ds :
  In (name, (ts, ds)) (get_traces_loop cg adg clock_limit stop_time prev).1 ->
  str_contains "analog" name = false -> str_contains "digital" name = true ->
  exists c0 rest, In (name, c0 :: rest) cg
    /\ ts = 0%Q :: expand_clock (c0 :: rest) clock_limit stop_time
    /\ ds = map (fun i => inject_Z ((c0.2 + Z.of_nat i) mod 2)) (seq 0 (length ts)).
Proof.
  revert prev. induction cg as [|[o clock] rest IH]; intros prev Hin Ha Hd; [destruct Hin|].
  simpl in Hin.
  assert (Hrest : forall data,
            In (name, (ts, ds))
               (get_traces_loop rest adg clock_limit stop_time (Some data)).1 ->
            exists c0 rest', In (name, c0 :: rest') ((o, clock) :: rest)
              /\ ts = 0%Q :: expand_clock (c0 :: rest') clock_limit stop_time
              /\ ds = map (fun i => inject_Z ((c0.2 + Z.of_nat i) mod 2))
                          (seq 0 (length ts))).
  { intros data H. destruct (IH _ H Ha Hd) as (c0 & rest' & H1 & H2 & H3).
    exists c0, rest'. split; [by right|auto]. }
  destruct (str_contains "analog" o) eqn:Eo.
  - destruct (group_get o adg) as [data|]; [|destruct Hin].
    destruct (get_traces_loop rest adg clock_limit stop_time (Some data)) as [tr e] eqn:Er.
    destruct Hin as [E|Hin].
    + injection E as -> _ _. congruence.
    + apply (Hrest data). by rewrite Er.
  - destruct (str_contains "digital" o) eqn:Eo2.
    + destruct clock as [|c0 clock']; [destruct Hin|].
      match type of Hin with context [get_traces_loop rest adg clock_limit stop_time (Some ?d)] =>
        set (data := d) in Hin end.
      destruct (get_traces_loop rest adg clock_limit stop_time (Some data)) as [tr e] eqn:Er.
      simpl in Hin. destruct Hin as [E|Hin].
      * injection E as -> <- <-. exists c0, clock'. split; [by left|auto].
      * apply (Hrest data). by rewrite Er.
    + destruct prev as [data|]; [|destruct Hin].
      destruct (get_traces_loop rest adg clock_limit stop_time (Some data)) as [tr e] eqn:Er.
      destruct Hin as [E|Hin].
      * injection E as -> _ _. congruence.
      * apply (Hrest data). by rewrite Er.
Qed.

(** Every trace [get_traces] adds for an output whose name contains
    ["digital"] but not ["analog"] comes from a non-empty clock of the
    clocks group: its times are [0] followed by the expanded clock, and its
    values alternate between [0] and [1] from the parity of the first row's
    [toggles], one value per time. *)
Theorem get_traces_digital_trace (g : device_group) (clock_limit stop_time : Q)
    (name : string) (ts ds : list Q) :
  In (name, (ts, ds)) (get_traces g clock_limit stop_time).1 ->
  str_contains "analog" name = false -> str_contains "digital" name = true ->
  exists c0 rest, In (name, c0 :: rest) (clocks g)
    /\ ts = 0%Q :: expand_clock (c0 :: rest) clock_limit stop_time
    /\ ds = map (fun i => inject_Z ((c0.2 + Z.of_nat i) mod 2)) (seq 0 (length ts))
    /\ length ds = length ts
    /\ Forall (fun q => q = 0%Q \/ q = 1%Q) ds.
Proof.
  intros Hin Ha Hd.
  destruct (get_traces_loop_digital _ _ _ _ _ _ _ _ Hin Ha Hd) as (c0 & rest & H1 & H2 & H3).
  exists c0, rest. split; [exact H1|split; [exact H2|split; [exact H3|]]].
  split; [by rewrite H3, length_map, length_seq|].
  rewrite H3. apply Forall_forall. intros q Hq.
  apply list_elem_of_In, in_map_iff in Hq as (i & <- & _).
  pose proof (Z.mod_pos_bound (c0.2 + Z.of_nat i) 2 ltac:(lia)) as B.
  destruct (decide ((c0.2 + Z.of_nat i) mod 2 = 0)) as [E|E]; rewrite ?E; [by left|].
  replace ((c0.2 + Z.of_nat i) mod 2) with 1 by lia. by right.
Qed.

Lemma get_traces_digital_trace_witness :
  In ("digital 1", (0%Q :: expand_clock [(4, 1); (4, 2)] 10 10,
                   map (fun i => inject_Z ((1 + Z.of_nat i) mod 2))
                       (seq 0 (length (0%Q :: expand_clock [(4, 1); (4, 2)] 10 10)))))
     (get_traces example_group 10 10).1
  /\ str_contains "analog" "digital 1" = false /\ str_contains "digital" "digital 1" = true
  /\ exists c0 rest, In ("digital 1", c0 :: rest) (clocks example_group)
       /\ 0%Q :: expand_clock [(4, 1); (4, 2)] 10 10
          = 0%Q :: expand_clock (c0 :: rest) 10 10
       /\ map (fun i => inject_Z ((1 + Z.of_nat i) mod 2))
              (seq 0 (length (0%Q :: expand_clock [(4, 1); (4, 2)] 10 10)))
          = map (fun i => inject_Z ((c0.2 + Z.of_nat i) mod 2))
                (seq 0 (length (0%Q :: expand_clock [(4, 1); (4, 2)] 10 10)))
       /\ length (map (fun i => inject_Z ((1 + Z.of_nat i) mod 2))
                      (seq 0 (length (0%Q :: expand_clock [(4, 1); (4, 2)] 10 10))))
          = length (0%Q :: expand_clock [(4, 1); (4, 2)] 10 10)
       /\ Forall (fun q => q = 0%Q \/ q = 1%Q)
                 (map (fun i => inject_Z ((1 + Z.of_nat i) mod 2))
                      (seq 0 (length (0%Q :: expand_clock [(4, 1); (4, 2)] 10 10)))).
Proof.
  assert (Hin : In ("digital 1", (0%Q :: expand_clock [(4, 1); (4, 2)] 10 10,
                   map (fun i => inject_Z ((1 + Z.of_nat i) mod 2))
                       (seq 0 (length (0%Q :: expand_clock [(4, 1); (4, 2)] 10 10)))))
     (get_traces example_group 10 10).1) by (right; left; reflexivity).
  assert (Ha : str_contains "analog" "digital 1" = false) by reflexivity.
  assert (Hd : str_contains "digital" "digital 1" = true) by reflexivity.
  split; [exact Hin|split; [exact Ha|split; [exact Hd|]]].
  exact (get_traces_digital_trace _ _ _ _ _ _ Hin Ha Hd).
Defined.

(* ------------------------------------------------------------------ *)
(** ** The connection string: [add_device] and [program_manual] *)

Lemma list_ascii_of_string_app (a b : string) :
  list_ascii_of_string (a ++ b) = list_ascii_of_string a ++ list_ascii_of_string b.
Proof. induction a as [|c a IH]; simpl; [reflexivity|by rewrite IH]. Qed.

Lemma split_space_from_nonnil (cur s : string) : split_space_from cur s <> [].
Proof.
  revert cur. induction s as [|c s IH]; intros cur; simpl; [discriminate|].
  destruct (Ascii.eqb c " "); [discriminate|apply IH].
Qed.

Lemma split_space_from_one (cur s b : string) :
  split_space_from cur s = [b] ->
  list_ascii_of_string b = list_ascii_of_string cur ++ list_ascii_of_string s
  /\ ~ In " "%char (list_ascii_of_string s).
Proof.
  revert cur. induction s as [|c s IH]; intros cur H; simpl in H.
  - injection H as <-. split; [by rewrite app_nil_r|simpl; tauto].
  - destruct (Ascii.eqb c " ") eqn:Ec.
    + injection H as _ H. by apply split_space_from_nonnil in H.
    + apply IH in H as [H1 H2]. rewrite list_ascii_of_string_app in H1. simpl in H1.
      rewrite <- app_assoc in H1. split; [exact H1|]. simpl.
      intros [E|E]; [subst c; by rewrite Ascii.eqb_refl in Ec|tauto].
Qed.

Lemma split_space_from_two (cur s a b : string) :
  split_space_from cur s = [a; b] ->
  list_ascii_of_string cur ++ list_ascii_of_string s
    = list_ascii_of_string a ++ " "%char :: list_ascii_of_string b
  /\ ~ In " "%char (list_ascii_of_string b).
Proof.
  revert cur. induction s as [|c s IH]; intros cur H; simpl in H.
  - discriminate.
  - destruct (Ascii.eqb c " ") eqn:Ec.
    + apply Ascii.eqb_eq in Ec as ->. injection H as <- H.
      apply split_space_from_one in H as [H1 H2]. simpl in H1. rewrite H1. auto.
    + apply IH in H as [H1 H2]. rewrite list_ascii_of_string_app, <- app_assoc in H1.
      simpl in H1. auto.
Qed.

Lemma drop_spaces_prefix (l : list Ascii.ascii) :
  exists pre, l = pre ++ drop_spaces l /\ Forall (fun c => is_py_space c = true) pre.
Proof.
  induction l as [|c l IH]; [by exists []|]. simpl.
  destruct (is_py_space c) eqn:Ec.
  - destruct IH as (pre & H1 & H2). exists (c :: pre). simpl. rewrite <- H1. auto.
  - by exists [].
Qed.

Lemma drop_spaces_nonspace (l : list Ascii.ascii) :
  Forall (fun c => is_py_space c = false) l -> drop_spaces l = l.
Proof. intros H. destruct H as [|c l Hc _]; simpl; [reflexivity|by rewrite Hc]. Qed.

Lemma digits_value_nonspace (acc : Z) (l : list Ascii.ascii) (n : Z) :
  digits_value acc l = Some n -> Forall (fun c => is_py_space c = false) l.
Proof.
  revert acc. induction l as [|c l IH]; intros acc H; [constructor|]. simpl in H.
  unfold digit_value in H.
  destruct (Nat.leb 48 (Ascii.nat_of_ascii c) && Nat.leb (Ascii.nat_of_ascii c) 57) eqn:E;
    [|discriminate].
  apply andb_prop in E as [E1 E2]. apply Nat.leb_le in E1, E2.
  constructor; [|exact (IH _ H)].
  unfold is_py_space. apply orb_false_iff. split; [apply Nat.eqb_neq; lia|].
  apply andb_false_iff. right. apply Nat.leb_gt. lia.
Qed.

Lemma unsigned_value_nonspace (l : list Ascii.ascii) (n : Z) :
  unsigned_value l = Some n -> Forall (fun c => is_py_space c = false) l.
Proof. destruct l; [discriminate|]. apply digits_value_nonspace. Qed.

Lemma split_ws_from_word (cur w l : list Ascii.ascii) :
  Forall (fun c => is_py_space c = false) w ->
  split_ws_from cur (w ++ l) = split_ws_from (rev w ++ cur) l.
Proof.
  intros H. revert cur. induction H as [|c w Hc _ IH]; intros cur; [reflexivity|].
  simpl. rewrite Hc, IH. by rewrite <- app_assoc.
Qed.

Lemma split_ws_from_spaces (w l : list Ascii.ascii) :
  Forall (fun c => is_py_space c = true) w ->
  split_ws_from [] (w ++ l) = split_ws_from [] l.
Proof. intros H. induction H as [|c w Hc _ IH]; [reflexivity|]. simpl. by rewrite Hc. Qed.

Lemma split_ws_from_trailing (cur w : list Ascii.ascii) :
  cur <> [] -> Forall (fun c => is_py_space c = true) w ->
  split_ws_from cur w = [string_of_list_ascii (rev cur)].
Proof.
  intros Hc H. destruct H as [|c w Hsp Hw]; simpl.
  - by destruct cur.
  - rewrite Hsp. destruct cur as [|x cur]; [congruence|].
    f_equal. rewrite <- (app_nil_r w), split_ws_from_spaces by exact Hw. reflexivity.
Qed.

Lemma split_ws_from_last_word (w post : list Ascii.ascii) :
  w <> [] -> Forall (fun c => is_py_space c = false) w ->
  Forall (fun c => is_py_space c = true) post ->
  split_ws_from [] (w ++ post) = [string_of_list_ascii w].
Proof.
  intros Hne Hw Hp. rewrite split_ws_from_word by exact Hw. rewrite app_nil_r.
  rewrite split_ws_from_trailing by
    (try exact Hp; intros E; apply (f_equal (@rev _)) in E;
     rewrite rev_involutive in E; by apply Hne).
  by rewrite rev_involutive.
Qed.

Lemma drop_spaces_head (l l' : list Ascii.ascii) (c : Ascii.ascii) :
  drop_spaces l = c :: l' -> is_py_space c = false.
Proof.
  induction l as [|x l IH]; simpl; [discriminate|].
  destruct (is_py_space x) eqn:E; [exact IH|]. intros H. by injection H as -> _.
Qed.

Lemma strip_spaces_split (l : list Ascii.ascii) :
  exists mid post,
    l = mid ++ rev (drop_spaces (rev (drop_spaces l))) ++ post
    /\ Forall (fun c => is_py_space c = true) mid
    /\ Forall (fun c => is_py_space c = true) post.
Proof.
  destruct (drop_spaces_prefix l) as (mid & H1 & H2).
  destruct (drop_spaces_prefix (rev (drop_spaces l))) as (post & H3 & H4).
  exists mid, (rev post). split; [|split; [exact H2|by apply Forall_rev]].
  rewrite H1 at 1. f_equal.
  rewrite <- (rev_involutive (drop_spaces l)) at 1. rewrite H3 at 1.
  rewrite rev_app_distr. reflexivity.
Qed.

Lemma unsigned_value_stripped (core : list Ascii.ascii) (m : Z) :
  unsigned_value core = Some m ->
  core <> [] /\ Forall (fun c => is_py_space c = false) core
  /\ rev (drop_spaces (rev (drop_spaces core))) = core.
Proof.
  intros H. pose proof (unsigned_value_nonspace _ _ H) as Hn.
  split; [by destruct core|split; [exact Hn|]].
  rewrite (drop_spaces_nonspace core Hn).
  rewrite (drop_spaces_nonspace (rev core)) by (by apply Forall_rev).
  apply rev_involutive.
Qed.

Lemma split_sign_other (c : Ascii.ascii) (l : list Ascii.ascii) :
  c <> "-"%char -> c <> "+"%char -> split_sign (c :: l) = (1, c :: l).
Proof. intros H1 H2. destruct c as [[] [] [] [] [] [] [] []]; try reflexivity; congruence. Qed.

(** What [int()] accepts: whitespace, an optional sign, whitespace only
    after a sign, a run of non-whitespace characters, whitespace; and the
    sign written right before that run reads as the same number. *)
Lemma int_of_string_shape (s : string) (n : Z) :
  int_of_string s = Some n ->
  exists pre sg mid core post,
    list_ascii_of_string s = pre ++ sg ++ mid ++ core ++ post
    /\ Forall (fun c => is_py_space c = true) pre
    /\ Forall (fun c => is_py_space c = true) mid
    /\ Forall (fun c => is_py_space c = true) post
    /\ core <> [] /\ Forall (fun c => is_py_space c = false) core
    /\ ((sg = [] /\ mid = []) \/ sg = ["-"%char] \/ sg = ["+"%char])
    /\ int_of_string (string_of_list_ascii (sg ++ core)) = Some n.
Proof.
  unfold int_of_string at 1. intros H.
  destruct (drop_spaces_prefix (list_ascii_of_string s)) as (pre & HL & Hpre).
  destruct (drop_spaces (list_ascii_of_string s)) as [|c l] eqn:Ed; [discriminate|].
  assert (Hsg : (c = "-"%char \/ c = "+"%char) \/ (c <> "-"%char /\ c <> "+"%char)).
  { destruct (Ascii.ascii_dec c "-"), (Ascii.ascii_dec c "+"); tauto. }
  destruct Hsg as [Hsg|[H1 H2]].
  - assert (Hs : split_sign (c :: l) = (if Ascii.eqb c "-" then -1 else 1, l))
      by (destruct Hsg as [-> | ->]; reflexivity).
    rewrite Hs in H.
    destruct (unsigned_value (rev (drop_spaces (rev (drop_spaces l))))) as [m|] eqn:Eu;
      [|discriminate].
    destruct (unsigned_value_stripped _ _ Eu) as (Hne & Hns & Hid).
    destruct (strip_spaces_split l) as (mid & post & Hl & Hmid & Hpost).
    set (core := rev (drop_spaces (rev (drop_spaces l)))) in *.
    exists pre, [c], mid, core, post.
    split; [rewrite HL, Hl; reflexivity|].
    split; [exact Hpre|split; [exact Hmid|split; [exact Hpost|]]].
    split; [exact Hne|split; [exact Hns|split]].
    + destruct Hsg as [-> | ->]; tauto.
    + unfold int_of_string. rewrite list_ascii_of_string_of_list_ascii.
      destruct Hsg as [-> | ->]; simpl in H |- *; rewrite Hid, Eu; exact H.
  - rewrite split_sign_other in H by assumption.
    destruct (unsigned_value (rev (drop_spaces (rev (drop_spaces (c :: l))))))
      as [m|] eqn:Eu; [|discriminate].
    destruct (unsigned_value_stripped _ _ Eu) as (Hne & Hns & Hid).
    destruct (strip_spaces_split (c :: l)) as (mid & post & Hl & Hmid & Hpost).
    assert (Hc : is_py_space c = false) by exact (drop_spaces_head _ _ _ Ed).
    destruct mid as [|x mid].
    2:{ exfalso. injection Hl as -> _. inversion Hmid; congruence. }
    set (core := rev (drop_spaces (rev (drop_spaces (c :: l))))) in *.
    exists pre, [], [], core, post.
    split; [rewrite HL, Hl; reflexivity|].
    split; [exact Hpre|split; [constructor|split; [exact Hpost|]]].
    split; [exact Hne|split; [exact Hns|split; [by left|]]].
    simpl in Hl. destruct core as [|c' core'] eqn:Ecore; [congruence|].
    injection Hl as <- _.
    unfold int_of_string. rewrite list_ascii_of_string_of_list_ascii. simpl app.
    rewrite (drop_spaces_nonspace _ Hns), split_sign_other by assumption. cbv beta iota zeta.
    rewrite Hid, Eu. exact H.
Qed.

(** Every connection string that [add_device] accepts ([split(' ')] and
    [int()]) is cut by [program_manual]'s [output_name.split()] either
    into the same kind and a channel word that [int()] reads as the same
    number, or, when whitespace follows the sign of the channel, into the
    kind, the sign and the digits; [program_manual] then raises
    [ValueError] on any changed value of that output. *)
Theorem connection_parsed_alike (conn : string) :
  connection_ok conn = true ->
  exists prefix channel n,
    split_space conn = [prefix; channel]
    /\ (prefix = "analog"%string \/ prefix = "digital"%string)
    /\ int_of_string channel = Some n
    /\ ((exists channel', split_ws conn = [prefix; channel']
                           /\ int_of_string channel' = Some n)
        \/ (exists sign digits,
              split_ws conn = [prefix; sign; digits]
              /\ (sign = "-"%string \/ sign = "+"%string)
              /\ int_of_string (sign ++ digits) = Some n
              /\ forall sv st v, value_changed v (output_values st !! conn) = true ->
                   program_manual sv [(conn, v)] st = (st, XErr ValueError))).
Proof.
  intros Hok. apply connection_ok_iff in Hok as (prefix & ch & n & Hs & Hp & Hn).
  destruct (split_space_from_two _ _ _ _ Hs) as [Hl _]. simpl in Hl.
  destruct (int_of_string_shape _ _ Hn)
    as (pre & sg & mid & core & post & Hch & Hpre & Hmid & Hpost & Hne & Hns & Hsg & Hcore).
  exists prefix, ch, n.
  split; [exact Hs|split; [exact Hp|split; [exact Hn|]]].
  assert (Hw : list_ascii_of_string prefix <> []
               /\ Forall (fun c => is_py_space c = false) (list_ascii_of_string prefix))
    by (destruct Hp as [-> | ->]; (split; [discriminate|repeat constructor])).
  assert (Hsplit : split_ws conn = prefix :: split_ws_from [] (sg ++ mid ++ core ++ post)).
  { unfold split_ws. rewrite Hl, Hch.
    rewrite split_ws_from_word by apply Hw. simpl.
    destruct (rev (list_ascii_of_string prefix) ++ []) as [|x r] eqn:Er.
    { exfalso. rewrite app_nil_r in Er. apply (f_equal (@rev _)) in Er.
      rewrite rev_involutive in Er. by apply Hw. }
    rewrite <- Er, app_nil_r, rev_involutive, string_of_list_ascii_of_string.
    f_equal. by rewrite split_ws_from_spaces by exact Hpre. }
  destruct Hsg as [[-> ->]|Hsg].
  - left. exists (string_of_list_ascii core). split; [|exact Hcore].
    rewrite Hsplit. simpl. by rewrite split_ws_from_last_word.
  - assert (Hx : exists x, sg = [x] /\ is_py_space x = false
                           /\ (string_of_list_ascii [x] = "-"%string
                               \/ string_of_list_ascii [x] = "+"%string))
      by (destruct Hsg as [-> | ->]; (eexists; split; [reflexivity|split; [reflexivity|tauto]])).
    destruct Hx as (x & -> & Hxs & Hxn).
    destruct mid as [|y mid].
    + left. exists (string_of_list_ascii (x :: core)). split; [|exact Hcore].
      rewrite Hsplit. simpl app. rewrite app_comm_cons.
      rewrite split_ws_from_last_word; [reflexivity|discriminate|by constructor|exact Hpost].
    + right. exists (string_of_list_ascii [x]), (string_of_list_ascii core).
      assert (Hy : is_py_space y = true) by (inversion Hmid; assumption).
      assert (Hmid' : Forall (fun c => is_py_space c = true) mid) by (inversion Hmid; assumption).
      assert (H3 : split_ws conn = [prefix; string_of_list_ascii [x]; string_of_list_ascii core]).
      { rewrite Hsplit. simpl. rewrite Hxs. simpl. rewrite Hy.
        rewrite split_ws_from_spaces by exact Hmid'.
        by rewrite split_ws_from_last_word. }
      split; [exact H3|split; [exact Hxn|split]].
      * exact Hcore.
      * intros sv st v Hv. unfold program_manual. simpl. by rewrite Hv, H3.
Qed.

Lemma connection_parsed_alike_witness :
  connection_ok digital_minus_tab_3 = true
  /\ exists prefix channel n,
       split_space digital_minus_tab_3 = [prefix; channel]
       /\ (prefix = "analog"%string \/ prefix = "digital"%string)
       /\ int_of_string channel = Some n
       /\ ((exists channel', split_ws digital_minus_tab_3 = [prefix; channel']
                              /\ int_of_string channel' = Some n)
           \/ (exists sign digits,
                 split_ws digital_minus_tab_3 = [prefix; sign; digits]
                 /\ (sign = "-"%string \/ sign = "+"%string)
                 /\ int_of_string (sign ++ digits) = Some n
                 /\ forall sv st v,
                      value_changed v (output_values st !! digital_minus_tab_3) = true ->
                      program_manual sv [(digital_minus_tab_3, v)] st = (st, XErr ValueError))).
Proof.
  assert (H : connection_ok digital_minus_tab_3 = true) by reflexivity.
  split; [exact H|exact (connection_parsed_alike _ H)].
Defined.

(** The connection string ["digital -\t3"] is accepted by [add_device]
    (as channel -3), while [program_manual] cuts it into three words and
    raises [ValueError] when a value is set for it. *)
Example connection_tab_after_sign :
  int_of_string "-3" = Some (-3)
  /\ connection_ok digital_minus_tab_3 = true
  /\ split_ws digital_minus_tab_3 = ["digital"%string; "-"%string; "3"%string]
  /\ program_manual echo_board [(digital_minus_tab_3, 1%Q)] manual_example_state
     = (manual_example_state, XErr ValueError).
Proof. vm_compute. repeat split. Qed.

(* ------------------------------------------------------------------ *)
(** ** program_manual on a malformed output name *)

Lemma program_manual_loop_app (sv : realtime_call -> Q) pre rest m st st1 m1 :
  program_manual_loop sv pre m st = (st1, XOk m1) ->
  program_manual_loop sv (pre ++ rest) m st = program_manual_loop sv rest m1 st1.
Proof.
  revert m st. induction pre as [|[k v] pre IH]; intros m st H; simpl in H |- *.
  - by injection H as <- <-.
  - destruct (value_changed v (output_values st !! k)); [|by apply IH].
    destruct (split_ws k) as [|ty [|ch [|]]]; try discriminate.
    destruct (int_of_string ch); [by apply IH|discriminate].
Qed.

(** When the first outputs of [values] are programmed and the next one
    has a changed value but a name that is not two words with an integer
    second word, [program_manual] raises [ValueError]; the realtime calls
    and cache updates already made for the earlier outputs stay. *)
Theorem program_manual_bad_name (sv : realtime_call -> Q) pre post name v st st1 m1 :
  program_manual sv pre st = (st1, XOk m1) ->
  value_changed v (output_values st1 !! name) = true ->
  match split_ws name with [_; ch] => int_of_string ch = None | _ => True end ->
  program_manual sv (pre ++ (name, v) :: post) st = (st1, XErr ValueError).
Proof.
  intros Hpre Hch Hbad. unfold program_manual.
  rewrite (program_manual_loop_app _ _ _ _ _ _ _ Hpre). simpl. rewrite Hch.
  destruct (split_ws name) as [|ty [|ch [|]]]; try reflexivity.
  by rewrite Hbad.
Qed.

Lemma program_manual_bad_name_witness :
  exists st1 m1,
    program_manual echo_board [("digital 3", 1%Q)] manual_example_state = (st1, XOk m1)
    /\ value_changed 1 (output_values st1 !! "digital x") = true
    /\ match split_ws "digital x" with [_; ch] => int_of_string ch = None | _ => True end
    /\ program_manual echo_board ([("digital 3", 1%Q)] ++ ("digital x", 1%Q) :: [])
         manual_example_state = (st1, XErr ValueError).
Proof.
  eexists _, _.
  assert (Hp : program_manual echo_board [("digital 3", 1%Q)] manual_example_state
               = (_, XOk _)) by reflexivity.
  assert (Hc : value_changed 1 (output_values
                 (program_manual echo_board [("digital 3", 1%Q)] manual_example_state).1
                 !! "digital x") = true) by (vm_compute; reflexivity).
  assert (Hb : match split_ws "digital x" with
               | [_; ch] => int_of_string ch = None | _ => True end) by reflexivity.
  split; [exact Hp|split; [exact Hc|split; [exact Hb|]]].
  exact (program_manual_bad_name _ _ [] _ _ _ _ _ Hp Hc Hb).
Defined.
